(** * DM_Agent: the image generator, its settings helpers and the MCP dispatch

    A shallow embedding of

      - [src/core/settings.py]       ([get_image_size_tuple], [get_device]),
      - [src/image_gen/generator.py] ([ImageGenerator]),
      - [src/mcp/server.py]          ([handle_list_tools], [handle_call_tool],
                                      [create_complete_post],
                                      [analyze_performance]),

    followed by the properties of the natural-language specification that
    concern them.

    Conventions.

      - Python [str] values are [string]s of ASCII characters; Python [int]s
        are [Z]; floats ([time.time()], the guidance scale) are idealised as
        rationals [Q], none of the properties below depends on rounding.
      - Everything outside the repository (torch, diffusers, PIL, ollama, the
        clock, the sibling packages [design], [publishing], [content]) is an
        oracle of a [World]; every call to it is recorded as an [event], so
        that "how often was X called" is a count over the trace.
      - Methods of [ImageGenerator] are computations in a state-and-exception
        monad [M]; Python exceptions are values of [exn]. *)

From Stdlib Require Import ZArith QArith String Ascii List Bool Lia.
From Stdlib Require Import Decimal DecimalString DecimalPos DecimalZ.
From stdpp Require Import base option list gmap strings.

Set Default Proof Using "Type".
Local Open Scope string_scope.
Local Open Scope Z_scope.

(** ** Python builtins used by the sources *)

Module Py.

(** [str.isspace] on ASCII: TAB, LF, VT, FF, CR, FS, GS, RS, US, SPACE. *)
Definition is_space (c : ascii) : bool :=
  let n := nat_of_ascii c in
  ((9 <=? n) && (n <=? 13) || (28 <=? n) && (n <=? 32))%nat.

Fixpoint lstrip (s : string) : string :=
  match s with
  | String c r => if is_space c then lstrip r else s
  | EmptyString => EmptyString
  end.

Fixpoint rev_onto (s acc : string) : string :=
  match s with
  | EmptyString => acc
  | String c r => rev_onto r (String c acc)
  end.

Definition rev (s : string) : string := rev_onto s EmptyString.

Definition rstrip (s : string) : string := rev (lstrip (rev s)).

(** [s.strip()] *)
Definition strip (s : string) : string := rstrip (lstrip s).

(** [s.split(sep)] for a one-character separator: one more piece than
    there are separators, empty pieces kept. *)
Fixpoint split (sep : ascii) (s : string) : list string :=
  match s with
  | EmptyString => [EmptyString]
  | String c r =>
      if Ascii.eqb c sep then EmptyString :: split sep r
      else match split sep r with
           | h :: t => String c h :: t
           | [] => [String c EmptyString]
           end
  end.

Definition digit_val (c : ascii) : option Z :=
  let n := nat_of_ascii c in
  if ((48 <=? n) && (n <=? 57))%nat then Some (Z.of_nat n - 48) else None.

(** The digit part of a base-10 literal: at least one digit, single
    underscores allowed between digits only. [prev] says whether the
    character just read was a digit. *)
Fixpoint parse_digits (s : string) (acc : Z) (prev : bool) : option Z :=
  match s with
  | EmptyString => if prev then Some acc else None
  | String c r =>
      match digit_val c with
      | Some d => parse_digits r (10 * acc + d) true
      | None =>
          if Ascii.eqb c "_"%char && prev then parse_digits r acc false
          else None
      end
  end.

(** The blanks [int] skips around a literal in an ASCII [str]: TAB, LF,
    VT, FF, CR and SPACE. Unlike [str.strip] it does not skip FS, GS, RS
    and US. *)
Definition is_blank (c : ascii) : bool :=
  let n := nat_of_ascii c in
  ((9 <=? n) && (n <=? 13) || (n =? 32))%nat.

Fixpoint skip_blanks (s : string) : string :=
  match s with
  | String c r => if is_blank c then skip_blanks r else s
  | EmptyString => EmptyString
  end.

Definition trim_blanks (s : string) : string :=
  rev (skip_blanks (rev (skip_blanks s))).

(** How many decimal digits [s] has; underscores and the like do not
    count, leading zeros do. *)
Fixpoint count_digits (s : string) : nat :=
  match s with
  | EmptyString => 0
  | String c r =>
      (match digit_val c with Some _ => 1 | None => 0 end) + count_digits r
  end.

(** [sys.get_int_max_str_digits()], at its default. *)
Definition max_str_digits : Z := 4300.

(** [s] has no more digits than Python converts. *)
Definition fits (s : string) : Prop :=
  Z.of_nat (count_digits s) <= max_str_digits.

(** The part of a base-10 literal after the sign: refused when it has more
    digits than the limit, read by [parse_digits] otherwise. *)
Definition literal (s : string) : option Z :=
  if max_str_digits <? Z.of_nat (count_digits s) then None
  else parse_digits s 0 false.

(** [int(s)] for a [str] argument: [None] stands for [ValueError].
    Surrounding blanks are dropped, one sign is allowed, and the number of
    digits is limited (CPython 3.11 and later, with the default limit). *)
Definition int (s : string) : option Z :=
  match trim_blanks s with
  | String "+" r => literal r
  | String "-" r => Z.opp <$> literal r
  | t => literal t
  end.

(** The decimal writing of [n]: [str(n)], which is also what [f"{n}"]
    inserts. Python refuses to write a number of more than
    [max_str_digits] digits; the modelled code only writes numbers that
    [int] has read, and the clock. *)
Definition str_int (n : Z) : string := NilZero.string_of_int (Z.to_int n).

(** The value of the byte [b] lies between [lo] and [hi]. *)
Definition in_range (lo hi : Z) (b : Byte.byte) : bool :=
  let n := Z.of_N (Byte.to_N b) in
  (lo <=? n) && (n <=? hi).

(** [bs] is well-formed UTF-8: one to four bytes per character, no
    overlong form, no surrogate, nothing above U+10FFFF. *)
Fixpoint is_utf8 (bs : list Byte.byte) : bool :=
  match bs with
  | [] => true
  | b0 :: r0 =>
      if in_range 0 127 b0 then is_utf8 r0
      else if in_range 194 223 b0 then
        match r0 with
        | b1 :: r1 => in_range 128 191 b1 && is_utf8 r1
        | _ => false
        end
      else if in_range 224 239 b0 then
        match r0 with
        | b1 :: b2 :: r2 =>
            in_range (if in_range 224 224 b0 then 160 else 128)
                     (if in_range 237 237 b0 then 159 else 191) b1
            && in_range 128 191 b2 && is_utf8 r2
        | _ => false
        end
      else if in_range 240 244 b0 then
        match r0 with
        | b1 :: b2 :: b3 :: r3 =>
            in_range (if in_range 240 240 b0 then 144 else 128)
                     (if in_range 244 244 b0 then 143 else 191) b1
            && in_range 128 191 b2 && in_range 128 191 b3 && is_utf8 r3
        | _ => false
        end
      else false
  end.

(** [bs.decode('utf-8')]: [None] stands for [UnicodeDecodeError]. A
    [str] is kept as the bytes of its UTF-8 encoding. *)
Definition decode (bs : list Byte.byte) : option string :=
  if is_utf8 bs then Some (string_of_list_byte bs) else None.

(** Truthiness of a string: [bool(s)]. *)
Definition truthy (s : string) : bool :=
  match s with EmptyString => false | _ => true end.

(** Every character is a decimal digit. *)
Fixpoint all_digits (s : string) : bool :=
  match s with
  | EmptyString => true
  | String c r => bool_decide (is_Some (digit_val c)) && all_digits r
  end.

End Py.

(** ** Exceptions, values and events *)

(** The [ValueError]s of the modelled code: the three ways
    [width, height = map(int, size_str.split('x'))] raises, and the one
    [handle_call_tool] raises itself. *)
Inductive value_error :=
| InvalidLiteral (s : string)      (* int() refuses the piece s *)
| NotEnoughValues (got : nat)      (* not enough values to unpack (expected 2, got n) *)
| TooManyValues                    (* too many values to unpack (expected 2) *)
| UnknownTool (name : string)      (* Unknown tool: <name> *)
| ValidationError (model field : string).
                                   (* pydantic refuses a field of a model *)

(** Python exceptions; every constructor is a subclass of [Exception].
    [IllTyped] marks the border of the model, see [as_str] below. *)
Inductive exn :=
| ValueError (e : value_error)
| KeyError (key : string)
| OutOfMemoryError                 (* torch.cuda.OutOfMemoryError *)
| ExternalError (msg : string)     (* anything else an external call raises *)
| IllTyped (key : string).

Inductive device := Cuda | Mps | Cpu.

(** JSON values of a tool call's [arguments] dict, as far as the
    schemas of [handle_list_tools] declare them. *)
Inductive value :=
| VStr (s : string)
| VInt (n : Z)
| VBool (b : bool)
| VStrs (l : list string).

(** Arguments of one [self.pipeline(...)] call. *)
Record run_args := RunArgs {
  run_prompt : string;
  run_width : Z;
  run_height : Z;
  num_inference_steps : Z;
  run_guidance_scale : Q;
  num_images_per_prompt : Z
}.

(** The parameters of [ImageGenerator.generate]. *)
Record generate_args := GenerateArgs {
  arg_prompt : string;
  arg_style : option string;
  arg_size : string;
  arg_steps : Z;
  arg_guidance_scale : Q;
  arg_enhance_prompt : bool
}.

(** A PIL image: all the model needs is what [save(..., format='PNG')]
    writes after the eight-byte PNG signature. *)
Record image := Image { png_body : list Byte.byte }.

(** Calls that leave the repository, in the order they happen. The
    [EvGenerate] event is a probe at the entry of [generate], like a call
    counter of a test double. *)
Inductive event :=
| EvFromPretrained (path : string)
| EvTo (d : device)
| EvOllamaGenerate (model prompt : string)
| EvPipeline (a : run_args)
| EvTime
| EvSave (path : string)
| EvEmptyCache
| EvGenerate (a : generate_args)
| EvCaption (theme platform tone : string) (include_hashtags : bool)
| EvSchedule (content_id schedule_time platforms : value)
| EvGetCalendar (date_range : value)
| EvApplyBranding (image_path template add_logo : value).

(** What [ollama_client.generate] does: it raises, or it returns a mapping
    in which ['response'] is a string, or one on which
    [response['response'].strip()] raises. *)
Inductive ollama_outcome :=
| OllamaRaises (e : exn)
| OllamaResponse (text : string)
| OllamaMalformed (e : exn).

(** The outside world. Every oracle sees the trace so far, so its answer
    may depend on everything that happened before. *)
Record World := {
  cuda_is_available : bool;
  mps_is_available : bool;
  from_pretrained : list event -> string -> option exn;
  pipeline_to : list event -> device -> option exn;
  ollama_generate : list event -> string -> string -> ollama_outcome;
  pipeline_call : list event -> run_args -> image + exn;
  time_time : list event -> Q;
  image_save : list event -> string -> option exn;
  caption_generate : list event -> string -> string -> string -> bool -> string + exn;
  scheduler_schedule : list event -> value -> value -> value -> string + exn;
  scheduler_get_calendar : list event -> value -> string + exn;
  apply_branding : list event -> value -> value -> value -> string + exn
}.

(** The fields of [core.settings.Settings] the modelled code reads.
    [output_path] is [str(settings.output_path)]. *)
Record Settings := {
  ollama_host : string;
  default_image_size : string;
  output_path : string;
  sd3_model_path : string;
  prompt_enhancer_model : string
}.

Definition default_settings : Settings := {|
  ollama_host := "http://localhost:11434";
  default_image_size := "1024x1024";
  output_path := "output";
  sd3_model_path := "stabilityai/stable-diffusion-3-medium-diffusers";
  prompt_enhancer_model := "brxce/stable-diffusion-prompt-generator"
|}.

(** The [StableDiffusion3Pipeline] object as far as [load_model] shapes it. *)
Record Pipeline := {
  weights : string;
  half_precision : bool;
  model_cpu_offload : bool;
  vae_slicing : bool;
  attention_slicing : bool;
  placed_on : option device
}.

(** The [ImageGenerator] instance together with the trace of the world.
    [self.device] is fixed by [__init__] and [self.ollama_client] carries no
    state, so [pipeline] is the only attribute that changes. *)
Record State := {
  pipeline : option Pipeline;
  trace : list event
}.

Definition Unloaded (s : State) : Prop := pipeline s = None.
Definition Loaded (s : State) : Prop := pipeline s <> None.

(** ** The state-and-exception monad *)

Inductive result (A : Type) :=
| Ok (a : A)
| Raise (e : exn).
Arguments Ok {A} a.
Arguments Raise {A} e.

Definition M (A : Type) : Type := State -> result A * State.

Definition ret {A} (a : A) : M A := fun s => (Ok a, s).
Definition raise {A} (e : exn) : M A := fun s => (Raise e, s).
Definition bind {A B} (m : M A) (k : A -> M B) : M B :=
  fun s => match m s with
           | (Ok a, s') => k a s'
           | (Raise e, s') => (Raise e, s')
           end.

(** [try: m  except Exception as e: h e] *)
Definition try_except {A} (m : M A) (h : exn -> M A) : M A :=
  fun s => match m s with
           | (Ok a, s') => (Ok a, s')
           | (Raise e, s') => h e s'
           end.

Notation "x <- m ;; k" := (bind m (fun x => k))
  (at level 100, m at next level, right associativity).
Notation "m ;;; k" := (bind m (fun _ => k))
  (at level 100, right associativity).

Definition emit (e : event) : M unit :=
  fun s => (Ok tt, {| pipeline := pipeline s; trace := trace s ++ [e] |}).
Definition get_trace : M (list event) := fun s => (Ok (trace s), s).
Definition get_pipeline : M (option Pipeline) := fun s => (Ok (pipeline s), s).
Definition set_pipeline (p : option Pipeline) : M unit :=
  fun s => (Ok tt, {| pipeline := p; trace := trace s |}).

(** An external call that returns nothing or raises. *)
Definition call_unit (e : event) (oracle : list event -> option exn) : M unit :=
  emit e ;;;
  t <- get_trace ;;
  match oracle t with
  | None => ret tt
  | Some x => raise x
  end.

(** An external call that returns a value or raises. *)
Definition call {A} (e : event) (oracle : list event -> A + exn) : M A :=
  emit e ;;;
  t <- get_trace ;;
  match oracle t with
  | inl a => ret a
  | inr x => raise x
  end.

Definition count_events (P : event -> bool) (t : list event) : nat :=
  length (List.filter P t).

Definition is_load (e : event) : bool :=
  match e with EvFromPretrained _ => true | _ => false end.
Definition is_run (e : event) : bool :=
  match e with EvPipeline _ => true | _ => false end.
Definition is_empty_cache (e : event) : bool :=
  match e with EvEmptyCache => true | _ => false end.
Definition is_generate (e : event) : bool :=
  match e with EvGenerate _ => true | _ => false end.
Definition is_ollama (e : event) : bool :=
  match e with EvOllamaGenerate _ _ => true | _ => false end.

(** ** [core/settings.py] *)

Definition lift {A} (r : result A) : M A := fun s => (r, s).

(** [width, height = map(int, size_str.split('x'))]: [map] is lazy, so the
    pieces are converted one at a time while the unpacking asks for them;
    after the second one it asks once more to see that nothing is left. *)
Definition unpack_two_ints (parts : list string) : result (Z * Z) :=
  match parts with
  | [] => Raise (ValueError (NotEnoughValues 0))
  | a :: rest =>
      match Py.int a with
      | None => Raise (ValueError (InvalidLiteral a))
      | Some width =>
          match rest with
          | [] => Raise (ValueError (NotEnoughValues 1))
          | b :: rest' =>
              match Py.int b with
              | None => Raise (ValueError (InvalidLiteral b))
              | Some height =>
                  match rest' with
                  | [] => Ok (width, height)
                  | c :: _ =>
                      match Py.int c with
                      | None => Raise (ValueError (InvalidLiteral c))
                      | Some _ => Raise (ValueError TooManyValues)
                      end
                  end
              end
          end
      end
  end.

Definition get_image_size_tuple (cfg : Settings) (size_str : option string)
  : result (Z * Z) :=
  let size_str :=
    match size_str with
    | Some s => if Py.truthy s then s else default_image_size cfg
    | None => default_image_size cfg
    end in
  unpack_two_ints (Py.split "x" size_str).

Definition get_device (w : World) : device :=
  if cuda_is_available w then Cuda
  else if mps_is_available w then Mps
  else Cpu.

(** ** [image_gen/generator.py] *)

(** The dict [generate] returns. *)
Record GenerationResult := {
  image_path : string;
  image_data : list Byte.byte;
  prompt : string;
  size : string;
  generation_time : Q;
  steps : Z;
  guidance_scale : Q
}.

(** Keyword arguments forwarded by [generate_batch]; an absent keyword
    leaves [generate]'s default in place. *)
Record kwargs := {
  kw_style : option string;
  kw_size : option string;
  kw_steps : option Z;
  kw_guidance_scale : option Q;
  kw_enhance_prompt : option bool
}.

Definition nl : string := String (ascii_of_nat 10) EmptyString.

Definition png_signature : list Byte.byte :=
  [Byte.x89; Byte.x50; Byte.x4e; Byte.x47; Byte.x0d; Byte.x0a; Byte.x1a; Byte.x0a].

(** [image.save(buffer, format='PNG'); buffer.getvalue()] *)
Definition encode_png (img : image) : list Byte.byte :=
  png_signature ++ png_body img.

Fixpoint ends_with_slash (s : string) : bool :=
  match s with
  | EmptyString => false
  | String c EmptyString => Ascii.eqb c "/"%char
  | String _ r => ends_with_slash r
  end.

(** [str(directory / filename)] for a relative [filename], POSIX flavour. *)
Definition path_join (directory filename : string) : string :=
  if String.eqb directory "." then filename
  else if ends_with_slash directory then directory ++ filename
  else directory ++ "/" ++ filename.

(** [int(x)] for a float: truncation towards zero. *)
Definition int_of_float (x : Q) : Z := Z.quot (Qnum x) (Z.pos (Qden x)).

Definition fallback_qualifiers : string :=
  ", high quality, detailed, professional photography".

Definition enhancement_request (basic_prompt : string)
    (style_preference : option string) : string :=
  "Transform this basic description into a detailed, artistic prompt for Stable Diffusion:"
  ++ nl ++ "            " ++ nl
  ++ "Basic idea: " ++ basic_prompt ++ nl
  ++ "Style preference: "
  ++ match style_preference with
     | Some st => if Py.truthy st then st else "creative and professional"
     | None => "creative and professional"
     end ++ nl
  ++ nl
  ++ "Make it detailed with artistic elements, lighting, composition, and quality modifiers.".

Section Generator.

Variable w : World.
Variable cfg : Settings.

(** [ImageGenerator()] *)
Definition init : State := {| pipeline := None; trace := [] |}.

Definition fresh_pipeline : Pipeline := {|
  weights := sd3_model_path cfg;
  half_precision := true;
  model_cpu_offload := false;
  vae_slicing := false;
  attention_slicing := false;
  placed_on := None
|}.

Definition update_pipeline (f : Pipeline -> Pipeline) : M unit :=
  p <- get_pipeline ;;
  set_pipeline (f <$> p).

Definition enable_model_cpu_offload (p : Pipeline) : Pipeline :=
  {| weights := weights p; half_precision := half_precision p;
     model_cpu_offload := true; vae_slicing := vae_slicing p;
     attention_slicing := attention_slicing p; placed_on := placed_on p |}.
Definition enable_vae_slicing (p : Pipeline) : Pipeline :=
  {| weights := weights p; half_precision := half_precision p;
     model_cpu_offload := model_cpu_offload p; vae_slicing := true;
     attention_slicing := attention_slicing p; placed_on := placed_on p |}.
Definition enable_attention_slicing (p : Pipeline) : Pipeline :=
  {| weights := weights p; half_precision := half_precision p;
     model_cpu_offload := model_cpu_offload p; vae_slicing := vae_slicing p;
     attention_slicing := true; placed_on := placed_on p |}.
Definition to (d : device) (p : Pipeline) : Pipeline :=
  {| weights := weights p; half_precision := half_precision p;
     model_cpu_offload := model_cpu_offload p; vae_slicing := vae_slicing p;
     attention_slicing := attention_slicing p; placed_on := Some d |}.

Definition load_model : M unit :=
  p <- get_pipeline ;;
  match p with
  | Some _ => ret tt
  | None =>
      call_unit (EvFromPretrained (sd3_model_path cfg))
                (fun t => from_pretrained w t (sd3_model_path cfg)) ;;;
      set_pipeline (Some fresh_pipeline) ;;;
      update_pipeline enable_model_cpu_offload ;;;
      update_pipeline enable_vae_slicing ;;;
      update_pipeline enable_attention_slicing ;;;
      call_unit (EvTo (get_device w))
                (fun t => pipeline_to w t (get_device w)) ;;;
      update_pipeline (to (get_device w))
  end.

Definition ollama_client_generate (model request : string) : M string :=
  emit (EvOllamaGenerate model request) ;;;
  t <- get_trace ;;
  match ollama_generate w t model request with
  | OllamaRaises e => raise e
  | OllamaMalformed e => raise e
  | OllamaResponse text => ret (Py.strip text)
  end.

Definition enhance_prompt (basic_prompt : string)
    (style_preference : option string) : M string :=
  try_except
    (ollama_client_generate (prompt_enhancer_model cfg)
       (enhancement_request basic_prompt style_preference))
    (fun _ => ret (basic_prompt ++ fallback_qualifiers)).

Definition time : M Q :=
  emit EvTime ;;;
  t <- get_trace ;;
  ret (time_time w t).

Definition empty_cache : M unit := emit EvEmptyCache.

(** The body of the [try] in [generate]. *)
Definition run_and_save (a : generate_args) (prompt : string)
    (width height : Z) (start_time : Q) : M GenerationResult :=
  img <- call (EvPipeline (RunArgs prompt width height (arg_steps a)
                                    (arg_guidance_scale a) 1))
              (fun t => pipeline_call w t
                          (RunArgs prompt width height (arg_steps a)
                                   (arg_guidance_scale a) 1)) ;;
  now <- time ;;
  let generation_time := (now - start_time)%Q in
  stamp <- time ;;
  let timestamp := int_of_float stamp in
  let filename :=
    "generated_" ++ Py.str_int timestamp ++ "_" ++ Py.str_int width
    ++ "x" ++ Py.str_int height ++ ".png" in
  let image_path := path_join (output_path cfg) filename in
  call_unit (EvSave image_path) (fun t => image_save w t image_path) ;;;
  ret {| image_path := image_path;
         image_data := encode_png img;
         prompt := prompt;
         size := Py.str_int width ++ "x" ++ Py.str_int height;
         generation_time := generation_time;
         steps := arg_steps a;
         guidance_scale := arg_guidance_scale a |}.

(** [generate] up to the [try]: load, settle the prompt, parse the size,
    read the clock. *)
Definition before_try (a : generate_args) : M (string * (Z * Z) * Q) :=
  emit (EvGenerate a) ;;;
  load_model ;;;
  prompt <- (if arg_enhance_prompt a
             then enhance_prompt (arg_prompt a) (arg_style a)
             else match arg_style a with
                  | Some st =>
                      if Py.truthy st
                      then ret (arg_prompt a ++ ", " ++ st ++ " style")
                      else ret (arg_prompt a)
                  | None => ret (arg_prompt a)
                  end) ;;
  wh <- lift (get_image_size_tuple cfg (Some (arg_size a))) ;;
  start_time <- time ;;
  ret (prompt, wh, start_time).

(** The two [except] clauses of [generate]. *)
Definition on_failure {A} (e : exn) : M A :=
  match e with
  | OutOfMemoryError => empty_cache ;;; raise e
  | _ => raise e
  end.

Definition generate (a : generate_args) : M GenerationResult :=
  x <- before_try a ;;
  let '(prompt, (width, height), start_time) := x in
  try_except (run_and_save a prompt width height start_time) on_failure.

(** [generate(prompt, **kwargs)] *)
Definition with_kwargs (prompt : string) (k : kwargs) : generate_args :=
  {| arg_prompt := prompt;
     arg_style := kw_style k;
     arg_size := default "1024x1024" (kw_size k);
     arg_steps := default 30 (kw_steps k);
     arg_guidance_scale := default (7 # 1) (kw_guidance_scale k);
     arg_enhance_prompt := default true (kw_enhance_prompt k) |}.

(** The [for] loop of [generate_batch], [results] being the list built
    so far. *)
Fixpoint generate_batch_from (results : list GenerationResult)
    (prompts : list string) (k : kwargs) : M (list GenerationResult) :=
  match prompts with
  | [] => ret results
  | p :: rest =>
      r <- generate (with_kwargs p k) ;;
      (if cuda_is_available w then empty_cache else ret tt) ;;;
      generate_batch_from (results ++ [r]) rest k
  end.

Definition generate_batch (prompts : list string) (k : kwargs)
  : M (list GenerationResult) :=
  generate_batch_from [] prompts k.

Definition unload_model : M unit :=
  p <- get_pipeline ;;
  match p with
  | Some _ =>
      set_pipeline None ;;;
      (if cuda_is_available w then empty_cache else ret tt)
  | None => ret tt
  end.

End Generator.

(** ** [mcp/server.py] *)

Inductive json_type := TString | TInteger | TBoolean | TArrayOfString.

Record Property := {
  prop_name : string;
  prop_type : json_type;
  prop_description : string
}.

Record Tool := {
  tool_name : string;
  tool_description : string;
  properties : list Property;
  required : list string
}.

(** The parts of a tool response, as [mcp.types] declares them: the
    [data] of an image part is a [str]. *)
Inductive content :=
| TextContent (text : string)
| ImageContent (data : string) (mimeType : string).

(** [ImageContent(type="image", data=data, mimeType=mimeType)] for [data]
    of type [bytes]. The field being a [str], pydantic decodes the bytes
    as UTF-8 and raises its [ValidationError], a [ValueError], when that
    fails. *)
Definition image_content (data : list Byte.byte) (mimeType : string)
  : M content :=
  match Py.decode data with
  | Some text => ret (ImageContent text mimeType)
  | None => raise (ValueError (ValidationError "ImageContent" "data"))
  end.

Definition handle_list_tools : list Tool := [
  {| tool_name := "generate_image";
     tool_description :=
       "Generate an image using Stable Diffusion based on a text prompt";
     properties := [
       {| prop_name := "prompt"; prop_type := TString;
          prop_description := "Text description of image to generate" |};
       {| prop_name := "style"; prop_type := TString;
          prop_description :=
            "Art style (optional): realistic, cartoon, abstract, etc." |};
       {| prop_name := "size"; prop_type := TString;
          prop_description := "Image size: 1024x1024, 1024x576, etc." |};
       {| prop_name := "steps"; prop_type := TInteger;
          prop_description := "Inference steps (default: 30)" |} ];
     required := ["prompt"] |};
  {| tool_name := "enhance_prompt";
     tool_description :=
       "Enhance a basic prompt into a detailed SD prompt using local LLM";
     properties := [
       {| prop_name := "basic_prompt"; prop_type := TString;
          prop_description := "Simple description to enhance" |};
       {| prop_name := "style_preference"; prop_type := TString;
          prop_description := "Preferred artistic style" |} ];
     required := ["basic_prompt"] |};
  {| tool_name := "create_social_post";
     tool_description :=
       "Generate a complete social media post with image and caption";
     properties := [
       {| prop_name := "theme"; prop_type := TString;
          prop_description := "Content theme/topic" |};
       {| prop_name := "platform"; prop_type := TString;
          prop_description := "Target platform: instagram, twitter, linkedin" |};
       {| prop_name := "tone"; prop_type := TString;
          prop_description :=
            "Content tone: professional, casual, inspirational" |};
       {| prop_name := "include_hashtags"; prop_type := TBoolean;
          prop_description := "Whether to include hashtags" |} ];
     required := ["theme"; "platform"] |};
  {| tool_name := "schedule_content";
     tool_description := "Schedule content for future posting";
     properties := [
       {| prop_name := "content_id"; prop_type := TString;
          prop_description := "ID of generated content" |};
       {| prop_name := "schedule_time"; prop_type := TString;
          prop_description := "ISO datetime string" |};
       {| prop_name := "platforms"; prop_type := TArrayOfString;
          prop_description := "Target platforms" |} ];
     required := ["content_id"; "schedule_time"; "platforms"] |};
  {| tool_name := "get_content_calendar";
     tool_description := "View scheduled content and pipeline status";
     properties := [
       {| prop_name := "date_range"; prop_type := TString;
          prop_description :=
            "Date range: this_week, next_week, this_month" |} ];
     required := [] |};
  {| tool_name := "brand_assets";
     tool_description :=
       "Apply brand assets (logo, colors, fonts) to generated content";
     properties := [
       {| prop_name := "image_path"; prop_type := TString;
          prop_description := "Path to image to brand" |};
       {| prop_name := "template"; prop_type := TString;
          prop_description := "Brand template: minimal, bold, elegant" |};
       {| prop_name := "add_logo"; prop_type := TBoolean;
          prop_description := "Whether to add company logo" |} ];
     required := ["image_path"] |};
  {| tool_name := "analyze_content_performance";
     tool_description :=
       "Get insights on content performance and suggestions";
     properties := [
       {| prop_name := "time_period"; prop_type := TString;
          prop_description := "Analysis period: week, month, quarter" |};
       {| prop_name := "metric"; prop_type := TString;
          prop_description :=
            "Metric to analyze: engagement, reach, clicks" |} ];
     required := [] |}
].

Definition registered (name : string) : Prop :=
  name ∈ tool_name <$> handle_list_tools.

Definition find_tool (name : string) : option Tool :=
  List.find (fun t => String.eqb name (tool_name t)) handle_list_tools.

(** The handler passes whatever the dict holds on to Python code that
    expects the JSON type its schema declares. The embedding is typed, so
    these casts mark the border: a value of another JSON type is outside
    the model and shows up as [IllTyped] (the source has no such check). *)
Definition as_str (key : string) (v : value) : M string :=
  match v with VStr s => ret s | _ => raise (IllTyped key) end.
Definition as_int (key : string) (v : value) : M Z :=
  match v with VInt n => ret n | _ => raise (IllTyped key) end.
Definition as_bool (key : string) (v : value) : M bool :=
  match v with VBool b => ret b | _ => raise (IllTyped key) end.
Definition as_opt_str (key : string) (v : option value) : M (option string) :=
  match v with
  | None => ret None
  | Some v => s <- as_str key v ;; ret (Some s)
  end.

(** [arguments[key]] *)
Definition subscript (arguments : gmap string value) (key : string) : M value :=
  match arguments !! key with
  | Some v => ret v
  | None => raise (KeyError key)
  end.

(** [arguments.get(key, dflt)] *)
Definition get (arguments : gmap string value) (key : string) (dflt : value)
  : value := default dflt (arguments !! key).

Section Server.

Variable w : World.
Variable cfg : Settings.

(** The defaults of [generate]'s signature. *)
Definition generate_defaults (prompt : string) (style : option string)
  : generate_args :=
  {| arg_prompt := prompt; arg_style := style; arg_size := "1024x1024";
     arg_steps := 30; arg_guidance_scale := 7 # 1;
     arg_enhance_prompt := true |}.

Definition create_complete_post (theme platform tone : string)
    (include_hashtags : bool) : M (GenerationResult * string) :=
  image_result <-
    generate w cfg
      (generate_defaults (theme ++ " content for " ++ platform)
         (Some (if String.eqb tone "professional"
                then "professional" else "creative"))) ;;
  caption <-
    call (EvCaption theme platform tone include_hashtags)
         (fun t => caption_generate w t theme platform tone include_hashtags) ;;
  ret (image_result, caption).

Definition analyze_performance (time_period metric : string) : M string :=
  ret ("Analysis for " ++ time_period ++ ": " ++ metric ++ " trending upward").

Definition handle_call_tool (name : string) (arguments : gmap string value)
  : M (list content) :=
  if String.eqb name "generate_image" then
    prompt <- subscript arguments "prompt" ;;
    let style := arguments !! "style" in
    let size := get arguments "size" (VStr "1024x1024") in
    let steps := get arguments "steps" (VInt 30) in
    prompt <- as_str "prompt" prompt ;;
    style <- as_opt_str "style" style ;;
    size <- as_str "size" size ;;
    steps <- as_int "steps" steps ;;
    result <- generate w cfg
                {| arg_prompt := prompt; arg_style := style;
                   arg_size := size; arg_steps := steps;
                   arg_guidance_scale := 7 # 1;
                   arg_enhance_prompt := true |} ;;
    let text := TextContent ("Generated image: " ++ image_path result) in
    image <- image_content (image_data result) "image/png" ;;
    ret [text; image]
  else if String.eqb name "enhance_prompt" then
    basic_prompt <- subscript arguments "basic_prompt" ;;
    let style_preference := arguments !! "style_preference" in
    basic_prompt <- as_str "basic_prompt" basic_prompt ;;
    style_preference <- as_opt_str "style_preference" style_preference ;;
    enhanced <- enhance_prompt w cfg basic_prompt style_preference ;;
    ret [TextContent ("Enhanced prompt: " ++ enhanced)]
  else if String.eqb name "create_social_post" then
    theme <- subscript arguments "theme" ;;
    platform <- subscript arguments "platform" ;;
    let tone := get arguments "tone" (VStr "professional") in
    let include_hashtags := get arguments "include_hashtags" (VBool true) in
    theme <- as_str "theme" theme ;;
    platform <- as_str "platform" platform ;;
    tone <- as_str "tone" tone ;;
    include_hashtags <- as_bool "include_hashtags" include_hashtags ;;
    post <- create_complete_post theme platform tone include_hashtags ;;
    let text := TextContent ("Created post: " ++ snd post) in
    image <- image_content (image_data (fst post)) "image/png" ;;
    ret [text; image]
  else if String.eqb name "schedule_content" then
    content_id <- subscript arguments "content_id" ;;
    schedule_time <- subscript arguments "schedule_time" ;;
    platforms <- subscript arguments "platforms" ;;
    result <- call (EvSchedule content_id schedule_time platforms)
                   (fun t => scheduler_schedule w t content_id schedule_time
                               platforms) ;;
    ret [TextContent ("Scheduled: " ++ result)]
  else if String.eqb name "get_content_calendar" then
    let date_range := get arguments "date_range" (VStr "this_week") in
    calendar <- call (EvGetCalendar date_range)
                     (fun t => scheduler_get_calendar w t date_range) ;;
    ret [TextContent ("Calendar: " ++ calendar)]
  else if String.eqb name "brand_assets" then
    image_path <- subscript arguments "image_path" ;;
    let template := get arguments "template" (VStr "minimal") in
    let add_logo := get arguments "add_logo" (VBool true) in
    branded <- call (EvApplyBranding image_path template add_logo)
                    (fun t => apply_branding w t image_path template add_logo) ;;
    ret [TextContent ("Branded image: " ++ branded)]
  else if String.eqb name "analyze_content_performance" then
    let time_period := get arguments "time_period" (VStr "week") in
    let metric := get arguments "metric" (VStr "engagement") in
    time_period <- as_str "time_period" time_period ;;
    metric <- as_str "metric" metric ;;
    analysis <- analyze_performance time_period metric ;;
    ret [TextContent ("Performance: " ++ analysis)]
  else
    raise (ValueError (UnknownTool name)).

End Server.

(** ** [test_system.py] *)

Section TestSystem.

Variable w : World.
Variable cfg : Settings.

(** [generator = ImageGenerator()]: the tests work on an instance of
    their own, whose [pipeline] is [None]; the world and its trace go on. *)
Definition new_generator : M unit := set_pipeline None.

(** Keyword arguments of the call in [test_image_generation]; the other
    parameters of [generate] keep their defaults. *)
Definition test_image_args : generate_args := {|
  arg_prompt := "a cute robot painting on a canvas, digital art";
  arg_style := None;
  arg_size := "512x512";
  arg_steps := 20;
  arg_guidance_scale := 7 # 1;
  arg_enhance_prompt := false
|}.

(** [Path(result['image_path']).exists()] only selects the line that is
    printed, the test returns [True] either way. *)
Definition test_image_generation : M bool :=
  try_except
    (new_generator ;;;
     result <- generate w cfg test_image_args ;;
     ret true)
    (fun _ => ret false).

Definition test_prompt_enhancement : M bool :=
  try_except
    (new_generator ;;;
     let basic_prompt := "a coffee shop" in
     enhanced <- enhance_prompt w cfg basic_prompt (Some "cozy and warm") ;;
     if (String.length basic_prompt <? String.length enhanced)%nat
     then ret true
     else ret false)
    (fun _ => ret false).

Definition full_test_args : generate_args := {|
  arg_prompt := "modern office workspace";
  arg_style := Some "professional photography";
  arg_size := "1024x1024";
  arg_steps := 30;
  arg_guidance_scale := 7 # 1;
  arg_enhance_prompt := true
|}.

Definition run_full_test : M bool :=
  try_except
    (new_generator ;;;
     result <- generate w cfg full_test_args ;;
     ret true)
    (fun _ => ret false).

End TestSystem.

(** ** Test doubles *)

Module Doubles.

(** A world in which loading, saving and the collaborators work, the
    clock stands at 1700000000.5 s, and the rest is chosen by the caller. *)
Definition world (cuda : bool)
    (ollama : list event -> string -> string -> ollama_outcome)
    (run : list event -> run_args -> image + exn) : World := {|
  cuda_is_available := cuda;
  mps_is_available := false;
  from_pretrained := fun _ _ => None;
  pipeline_to := fun _ _ => None;
  ollama_generate := ollama;
  pipeline_call := run;
  time_time := fun _ => (3400000001 # 2)%Q;
  image_save := fun _ _ => None;
  caption_generate := fun _ _ _ _ _ => inl "caption";
  scheduler_schedule := fun _ _ _ _ => inl "scheduled";
  scheduler_get_calendar := fun _ _ => inl "calendar";
  apply_branding := fun _ _ _ _ => inl "branded.png"
|}.

Definition ollama_ok : list event -> string -> string -> ollama_outcome :=
  fun _ _ _ => OllamaResponse "  a robot, oil on canvas, soft light  ".
Definition ollama_down : list event -> string -> string -> ollama_outcome :=
  fun _ _ _ => OllamaRaises (ExternalError "connection refused").

Definition run_ok : list event -> run_args -> image + exn :=
  fun _ _ => inl (Image []).
Definition run_oom : list event -> run_args -> image + exn :=
  fun _ _ => inr OutOfMemoryError.
(** Fails on the prompt ["second"], works on every other one. *)
Definition run_fails_on_second : list event -> run_args -> image + exn :=
  fun _ a => if String.eqb (run_prompt a) "second"
             then inr (ExternalError "inference failed")
             else inl (Image []).

Definition happy : World := world true ollama_ok run_ok.

(** The world [happy] with a clock that advances: it reads 1700000000 s
    plus one second for every event so far. *)
Definition ticking : World := {|
  cuda_is_available := cuda_is_available happy;
  mps_is_available := mps_is_available happy;
  from_pretrained := from_pretrained happy;
  pipeline_to := pipeline_to happy;
  ollama_generate := ollama_generate happy;
  pipeline_call := pipeline_call happy;
  time_time := fun t => inject_Z (1700000000 + Z.of_nat (length t));
  image_save := image_save happy;
  caption_generate := caption_generate happy;
  scheduler_schedule := scheduler_schedule happy;
  scheduler_get_calendar := scheduler_get_calendar happy;
  apply_branding := apply_branding happy
|}.

(** The call of [test_image_generation] in [test_system.py]. *)
Definition robot : generate_args := {|
  arg_prompt := "a cute robot painting on a canvas, digital art";
  arg_style := None;
  arg_size := "512x512";
  arg_steps := 20;
  arg_guidance_scale := 7 # 1;
  arg_enhance_prompt := false
|}.



Definition plain : kwargs :=
  {| kw_style := None; kw_size := Some "64x64"; kw_steps := None;
     kw_guidance_scale := None; kw_enhance_prompt := Some false |}.

Definition three : list string := ["first"; "second"; "third"].

(** A generator that has loaded its model. *)
Definition loaded : State := snd (load_model happy default_settings init).

End Doubles.

(** ** More test doubles *)

Module MoreDoubles.

(** The world [Doubles.happy] with a loader that may fail: [fetch] is what
    [from_pretrained] raises, [move] what moving to the device raises. *)
Definition loader (fetch move : option exn) : World := {|
  cuda_is_available := cuda_is_available Doubles.happy;
  mps_is_available := mps_is_available Doubles.happy;
  from_pretrained := fun _ _ => fetch;
  pipeline_to := fun _ _ => move;
  ollama_generate := ollama_generate Doubles.happy;
  pipeline_call := pipeline_call Doubles.happy;
  time_time := time_time Doubles.happy;
  image_save := image_save Doubles.happy;
  caption_generate := caption_generate Doubles.happy;
  scheduler_schedule := scheduler_schedule Doubles.happy;
  scheduler_get_calendar := scheduler_get_calendar Doubles.happy;
  apply_branding := apply_branding Doubles.happy
|}.

Definition no_weights : exn := ExternalError "weights not found".
Definition no_device : exn := ExternalError "device not usable".

(** A call with enhancement on and a style hint. *)
Definition noir : generate_args := {|
  arg_prompt := "a harbour at night";
  arg_style := Some "film noir";
  arg_size := "768x512";
  arg_steps := 25;
  arg_guidance_scale := 7 # 1;
  arg_enhance_prompt := true
|}.

Definition post_arguments : gmap string value :=
  {[ "theme" := VStr "autumn sale"; "platform" := VStr "instagram" ]}.

End MoreDoubles.

(** ** Vocabulary of the properties *)

(** [emits Q m]: whatever [m] appends to the trace satisfies [Q]. *)
Definition emits (Q : event -> bool) {A} (m : M A) : Prop :=
  forall s, exists t,
    trace (snd (m s)) = (trace s ++ t)%list /\ forallb Q t = true.

(** [keeps_pipeline m]: [m] never assigns [self.pipeline]. *)
Definition keeps_pipeline {A} (m : M A) : Prop :=
  forall s, pipeline (snd (m s)) = pipeline s.

(** [keeps_loaded m]: [m] never turns a loaded generator into an
    unloaded one. *)
Definition keeps_loaded {A} (m : M A) : Prop :=
  forall s, Loaded s -> Loaded (snd (m s)).

(** The events each part of [generate] can leave in the trace. *)
Definition load_events (e : event) : bool :=
  match e with EvFromPretrained _ | EvTo _ => true | _ => false end.
Definition clock_events (e : event) : bool :=
  match e with EvTime => true | _ => false end.
Definition try_events (e : event) : bool :=
  match e with EvPipeline _ | EvTime | EvSave _ => true | _ => false end.
Definition before_try_events (e : event) : bool :=
  load_events e || is_ollama e || clock_events e.

(** The keyword arguments [generate] calls the pipeline with. *)
Definition args_of (a : generate_args) (p : string) (width height : Z)
  : run_args :=
  RunArgs p width height (arg_steps a) (arg_guidance_scale a) 1.

(** [clear_between w s]: the state after the cache clearing that follows a
    successful item. *)
Definition clear_between (w : World) (s : State) : State :=
  if cuda_is_available w
  then {| pipeline := pipeline s; trace := trace s ++ [EvEmptyCache] |}
  else s.

(** The clearing [generate] does itself when it raises [e] from [s]: one
    when the [try] had been entered and [e] is the out-of-memory error,
    none when the failure is another one or came before the [try]. *)
Definition clears_on_failure (w : World) (cfg : Settings)
    (a : generate_args) (s : State) (e : exn) : nat :=
  match fst (before_try w cfg a s), e with
  | Ok _, OutOfMemoryError => 1
  | _, _ => 0
  end.

(** The batch as the specification words it: the prompts are taken in
    order, each one goes through [generate] in the state the previous one
    left behind, every one of them succeeds. *)
Inductive batch_run (w : World) (cfg : Settings) (k : kwargs)
  : State -> list string -> list GenerationResult -> State -> Prop :=
| batch_run_nil s : batch_run w cfg k s [] [] s
| batch_run_cons s p r s1 rest rs s2 :
    generate w cfg (with_kwargs p k) s = (Ok r, s1) ->
    batch_run w cfg k (clear_between w s1) rest rs s2 ->
    batch_run w cfg k s (p :: rest) (r :: rs) s2.




(** [f"generated_{timestamp}_{width}x{height}.png"] *)
Definition filename_of (timestamp width height : Z) : string :=
  "generated_" ++ Py.str_int timestamp ++ "_" ++ Py.str_int width
  ++ "x" ++ Py.str_int height ++ ".png".

(** The trace of a [generate] entered at [s] once the pipeline has been
    called: the probe, the events [t] of the steps before the [try], and
    the call for [p] at [width] by [height]. *)
Definition trace_at_run (s : State) (a : generate_args) (t : list event)
    (p : string) (width height : Z) : list event :=
  (trace s ++ EvGenerate a :: t
   ++ [EvPipeline (args_of a p width height)])%list.

(** The same trace once the clock has been read for the file name, which
    is the second reading after the pipeline call. *)
Definition trace_at_stamp (s : State) (a : generate_args) (t : list event)
    (p : string) (width height : Z) : list event :=
  (trace_at_run s a t p width height ++ [EvTime; EvTime])%list.

(** Any event but the probe at the entry of [generate]. *)
Definition not_generate (e : event) : bool := negb (is_generate e).

(** What the [generate_image] tool does with a result: it builds the
    two parts of its response, the text and then the image. *)
Definition image_response (result : GenerationResult) : M (list content) :=
  let text := TextContent ("Generated image: " ++ image_path result) in
  image <- image_content (image_data result) "image/png" ;;
  ret [text; image].

(** What [ImageContent] raises when its [data] cannot be a [str]. *)
Definition invalid_image_data : exn :=
  ValueError (ValidationError "ImageContent" "data").

(** What the specification asks of a batch: as many cache clearings as
    items processed, however the items end. *)
Definition cleared_once_per_item (w : World) (cfg : Settings)
    (prompts : list string) (k : kwargs) (s : State) : Prop :=
  let s' := snd (generate_batch w cfg prompts k s) in
  (count_events is_empty_cache (trace s')
   - count_events is_empty_cache (trace s)
   = count_events is_generate (trace s')
     - count_events is_generate (trace s))%nat.

(** ** Vocabulary of the further properties *)

(** How often the character [c] occurs in [s]. *)
Fixpoint count_char (c : ascii) (s : string) : nat :=
  match s with
  | EmptyString => 0
  | String c' r => (if Ascii.eqb c' c then 1 else 0) + count_char c r
  end.

(** Every character of [s] satisfies [P]. *)
Fixpoint string_forall (P : ascii -> bool) (s : string) : bool :=
  match s with
  | EmptyString => true
  | String c r => P c && string_forall P r
  end.

(** Neither whitespace nor the separator of a size string. *)
Definition plain_char (c : ascii) : bool :=
  negb (Py.is_space c) && negb (Ascii.eqb c "x").

(** The string [get_image_size_tuple] works on: [size_str or default]. *)
Definition effective_size (cfg : Settings) (size_str : option string) : string :=
  match size_str with
  | Some s => if Py.truthy s then s else default_image_size cfg
  | None => default_image_size cfg
  end.

(** The state right after the probe at the entry of [generate]. *)
Definition probed (a : generate_args) (s : State) : State :=
  {| pipeline := pipeline s; trace := trace s ++ [EvGenerate a] |}.

(** [advances m]: [m] always leaves at least one event in the trace. *)
Definition advances {A} (m : M A) : Prop :=
  forall s, exists e t, trace (snd (m s)) = (trace s ++ e :: t)%list.

(** The pipeline as [load_model] leaves it when every step went through. *)
Definition configured_pipeline (w : World) (cfg : Settings) : Pipeline := {|
  weights := sd3_model_path cfg;
  half_precision := true;
  model_cpu_offload := true;
  vae_slicing := true;
  attention_slicing := true;
  placed_on := Some (get_device w)
|}.

(** The prompt [generate] works with when [enhance_prompt] is [False]. *)
Definition plain_prompt (a : generate_args) : string :=
  match arg_style a with
  | Some st => if Py.truthy st then arg_prompt a ++ ", " ++ st ++ " style"
               else arg_prompt a
  | None => arg_prompt a
  end.

Definition is_save (e : event) : bool :=
  match e with EvSave _ => true | _ => false end.
Definition is_caption (e : event) : bool :=
  match e with EvCaption _ _ _ _ => true | _ => false end.

(** Events of the model handle and the orchestrator, as opposed to those
    of the text service, the clock and the collaborators. *)
Definition touches_model (e : event) : bool :=
  match e with
  | EvFromPretrained _ | EvTo _ | EvPipeline _ | EvSave _ | EvEmptyCache
  | EvGenerate _ => true
  | _ => false
  end.

(** Everything [generate] can leave in the trace. *)
Definition generate_events (e : event) : bool :=
  touches_model e || is_ollama e || clock_events e.

(** The outcome of a tool call that got past its argument lookups: it is
    not a [KeyError], or something has happened since the state [s]. *)
Definition past_lookup (s : State) (out : result (list content) * State)
  : Prop :=
  (forall k, fst out <> Raise (KeyError k)) \/ trace (snd out) <> trace s.

(** The tools that are routed to [generate]. *)
Definition image_tool (name : string) : bool :=
  String.eqb name "generate_image" || String.eqb name "create_social_post".

(** * Properties *)

(** ** Decimal strings survive [split] and [int] *)

Module PyFacts.
Import Py.

Example split_512 : split "x" "512x512" = ["512"; "512"].
Proof. reflexivity. Qed.
Example split_none : split "x" "large" = ["large"].
Proof. reflexivity. Qed.
Example split_three : split "x" "1x2x" = ["1"; "2"; ""].
Proof. reflexivity. Qed.
Example int_plain : int "1024" = Some 1024.
Proof. reflexivity. Qed.
Example int_padded : int " -1_0 " = Some (-10).
Proof. reflexivity. Qed.
Example int_bad : int "1__0" = None /\ int "" = None /\ int "ten" = None.
Proof. repeat split; reflexivity. Qed.
Example str_int_neg : str_int (-120) = "-120".
Proof. reflexivity. Qed.

Lemma digit_not_space c : is_Some (digit_val c) -> is_space c = false.
Proof.
  intros [d Hd]. destruct c as [[] [] [] [] [] [] [] []];
    solve [reflexivity | discriminate Hd].
Qed.

Lemma digit_not_x c : is_Some (digit_val c) -> Ascii.eqb c "x" = false.
Proof.
  intros [d Hd]. destruct (Ascii.eqb_spec c "x") as [->|]; [|done].
  discriminate Hd.
Qed.

Lemma append_cons c (a b : string) : String c a ++ b = String c (a ++ b).
Proof. reflexivity. Qed.

Lemma append_nil_l (b : string) : "" ++ b = b.
Proof. reflexivity. Qed.

Lemma string_app_assoc (a b c : string) : (a ++ b) ++ c = a ++ (b ++ c).
Proof.
  induction a as [|x a IH]; [done|].
  by rewrite !append_cons, IH.
Qed.

Lemma string_app_nil_r (a : string) : a ++ "" = a.
Proof.
  induction a as [|x a IH]; [done|].
  by rewrite append_cons, IH.
Qed.

Lemma rev_onto_app s acc : rev_onto s acc = rev s ++ acc.
Proof.
  unfold rev. revert acc.
  induction s as [|c r IH]; intros acc; simpl; [done|].
  rewrite (IH (String c acc)), (IH (String c EmptyString)).
  by rewrite string_app_assoc.
Qed.

Lemma rev_cons c s : rev (String c s) = rev s ++ String c "".
Proof. unfold rev at 1. simpl. apply rev_onto_app. Qed.

Lemma rev_app a b : rev (a ++ b) = rev b ++ rev a.
Proof.
  induction a as [|x a IH].
  - by rewrite append_nil_l, string_app_nil_r.
  - by rewrite append_cons, !rev_cons, IH, string_app_assoc.
Qed.

Lemma rev_involutive s : rev (rev s) = s.
Proof.
  induction s as [|c r IH]; [done|].
  by rewrite rev_cons, rev_app, IH.
Qed.

Lemma all_digits_app a b :
  all_digits (a ++ b) = all_digits a && all_digits b.
Proof.
  induction a as [|x a IH]; [done|].
  rewrite append_cons. simpl. by rewrite IH, andb_assoc.
Qed.

Lemma all_digits_rev s : all_digits (rev s) = all_digits s.
Proof.
  induction s as [|c r IH]; [done|].
  rewrite rev_cons, all_digits_app, IH. simpl.
  rewrite andb_true_r. apply andb_comm.
Qed.

Lemma split_digits (a b : string) :
  all_digits a = true -> all_digits b = true ->
  split "x" b = [b] /\ split "x" (a ++ "x" ++ b) = [a; b].
Proof.
  intros Ha Hb.
  assert (Hone : forall s, all_digits s = true -> split "x" s = [s]).
  { induction s as [|c r IH]; simpl; [done|].
    intros [Hc Hr]%andb_prop. apply bool_decide_eq_true in Hc.
    by rewrite (digit_not_x c Hc), (IH Hr). }
  split; [by apply Hone|].
  induction a as [|c r IH].
  - rewrite append_nil_l, append_cons, append_nil_l. simpl.
    by rewrite (Hone b Hb).
  - apply andb_prop in Ha as [Hc Hr]. apply bool_decide_eq_true in Hc.
    rewrite append_cons. simpl.
    by rewrite (digit_not_x c Hc), (IH Hr).
Qed.

Lemma uint_string_digits d : all_digits (NilEmpty.string_of_uint d) = true.
Proof. induction d; simpl; auto. Qed.

Lemma parse_digits_step c r acc prev d :
  digit_val c = Some d ->
  parse_digits (String c r) acc prev = parse_digits r (10 * acc + d) true.
Proof. intros H. simpl. by rewrite H. Qed.

Lemma parse_digits_acc d q :
  parse_digits (NilEmpty.string_of_uint d) (Z.pos q) true
  = Some (Z.pos (Pos.of_uint_acc d q)).
Proof.
  revert q.
  induction d as [|d IH|d IH|d IH|d IH|d IH|d IH|d IH|d IH|d IH|d IH];
    intros q; [done|..].
  all: cbn [NilEmpty.string_of_uint Pos.of_uint_acc].
  all: erewrite parse_digits_step by reflexivity.
  all: rewrite <- IH; f_equal.
  all: match goal with
       | |- context [Z.of_nat (nat_of_ascii ?c) - 48] =>
           let v := eval vm_compute in (Z.of_nat (nat_of_ascii c) - 48) in
           change (Z.of_nat (nat_of_ascii c) - 48) with v
       end; lia.
Qed.

Lemma parse_digits_uint d :
  parse_digits (NilEmpty.string_of_uint d) 0 true
  = Some (Z.of_N (Pos.of_uint d)).
Proof.
  induction d as [|d IH|d IH|d IH|d IH|d IH|d IH|d IH|d IH|d IH|d IH];
    [done|..].
  all: cbn [NilEmpty.string_of_uint Pos.of_uint].
  all: erewrite parse_digits_step by reflexivity.
  - apply IH.
  - apply (parse_digits_acc d 1).
  - apply (parse_digits_acc d 2).
  - apply (parse_digits_acc d 3).
  - apply (parse_digits_acc d 4).
  - apply (parse_digits_acc d 5).
  - apply (parse_digits_acc d 6).
  - apply (parse_digits_acc d 7).
  - apply (parse_digits_acc d 8).
  - apply (parse_digits_acc d 9).
Qed.

Lemma parse_digits_first s acc :
  s <> EmptyString -> all_digits s = true ->
  parse_digits s acc false = parse_digits s acc true.
Proof.
  destruct s as [|c r]; [done|]. simpl.
  intros _ [Hc _]%andb_prop. apply bool_decide_eq_true in Hc.
  by destruct Hc as [d ->].
Qed.

Lemma str_int_pos p : str_int (Z.pos p) = NilEmpty.string_of_uint (Pos.to_uint p).
Proof.
  unfold str_int. simpl.
  pose proof (Unsigned.to_uint_nonnil p) as Hn.
  by destruct (Pos.to_uint p).
Qed.

Lemma str_int_pos_digits p : all_digits (str_int (Z.pos p)) = true.
Proof. rewrite str_int_pos. apply uint_string_digits. Qed.

Lemma str_int_pos_nonempty p : str_int (Z.pos p) <> EmptyString.
Proof.
  rewrite str_int_pos.
  pose proof (Unsigned.to_uint_nonnil p) as Hn.
  by destruct (Pos.to_uint p).
Qed.

Lemma blank_is_space c : is_blank c = true -> is_space c = true.
Proof. destruct c as [[] [] [] [] [] [] [] []]; done. Qed.

Lemma digit_not_blank c : is_Some (digit_val c) -> is_blank c = false.
Proof.
  intros H. apply digit_not_space in H.
  destruct (is_blank c) eqn:E; [|done].
  apply blank_is_space in E. congruence.
Qed.

Lemma skip_blanks_digits s : all_digits s = true -> skip_blanks s = s.
Proof.
  destruct s as [|c r]; simpl; [done|].
  intros [Hc _]%andb_prop. apply bool_decide_eq_true in Hc.
  by rewrite digit_not_blank.
Qed.

Lemma trim_blanks_digits s : all_digits s = true -> trim_blanks s = s.
Proof.
  intros H. unfold trim_blanks.
  rewrite (skip_blanks_digits s H), skip_blanks_digits, rev_involutive;
    [done|].
  by rewrite all_digits_rev.
Qed.

Lemma literal_fits s : fits s -> literal s = parse_digits s 0 false.
Proof.
  unfold fits, literal. intros H.
  destruct (Z.ltb_spec max_str_digits (Z.of_nat (count_digits s))); [lia|done].
Qed.

Lemma literal_some s n : literal s = Some n -> parse_digits s 0 false = Some n.
Proof. unfold literal. by destruct (_ <? _). Qed.

Lemma parse_str_int_pos p :
  parse_digits (str_int (Z.pos p)) 0 false = Some (Z.pos p).
Proof.
  rewrite parse_digits_first
    by (apply str_int_pos_nonempty || apply str_int_pos_digits).
  by rewrite str_int_pos, parse_digits_uint, Unsigned.of_to.
Qed.

(** A written positive number has no sign and no blanks around it. *)
Lemma int_str_int_literal p :
  int (str_int (Z.pos p)) = literal (str_int (Z.pos p)).
Proof.
  unfold int. rewrite (trim_blanks_digits _ (str_int_pos_digits p)).
  pose proof (str_int_pos_digits p) as Hd.
  destruct (str_int (Z.pos p)) as [|c r]; [done|].
  simpl in Hd. apply andb_prop in Hd as [Hc _].
  apply bool_decide_eq_true in Hc.
  destruct (Ascii.eqb_spec c "+") as [->|]; [by destruct Hc|].
  destruct (Ascii.eqb_spec c "-") as [->|]; [by destruct Hc|].
  destruct c as [[] [] [] [] [] [] [] []]; try done.
Qed.

(** [int(str(n)) == n] for positive [n] within the digit limit. *)
Lemma int_str_int p :
  fits (str_int (Z.pos p)) -> int (str_int (Z.pos p)) = Some (Z.pos p).
Proof.
  intros H. rewrite int_str_int_literal, literal_fits by done.
  apply parse_str_int_pos.
Qed.

(** Beyond the limit [int] refuses; it never reads another number. *)
Lemma int_str_int_inv p n :
  int (str_int (Z.pos p)) = Some n -> n = Z.pos p.
Proof.
  rewrite int_str_int_literal. intros H%literal_some.
  rewrite parse_str_int_pos in H. congruence.
Qed.

End PyFacts.

(** ** What a computation adds to the trace and does to the pipeline *)

Create HintDb frame.

Section Frames.

Context {A B : Type}.
Implicit Types (Q : event -> bool) (m : M A) (k : A -> M B).

Lemma emits_ret Q (a : A) : emits Q (ret a).
Proof. intros s. exists []. by rewrite app_nil_r. Qed.

Lemma emits_raise Q e : emits Q (@raise A e).
Proof. intros s. exists []. by rewrite app_nil_r. Qed.

Lemma emits_lift Q (r : result A) : emits Q (lift r).
Proof. intros s. exists []. by rewrite app_nil_r. Qed.

Lemma emits_bind Q m k :
  emits Q m -> (forall a, emits Q (k a)) -> emits Q (bind m k).
Proof.
  intros Hm Hk s. unfold bind.
  destruct (Hm s) as (t1 & E1 & F1).
  destruct (m s) as [[a|e] s1]; simpl in *.
  - destruct (Hk a s1) as (t2 & E2 & F2).
    exists (t1 ++ t2)%list. rewrite E2, E1, app_assoc, forallb_app, F1, F2. done.
  - by exists t1.
Qed.

Lemma emits_weaken Q Q' m :
  (forall e, Q e = true -> Q' e = true) -> emits Q m -> emits Q' m.
Proof.
  intros HQ Hm s. destruct (Hm s) as (t & E & F).
  exists t. split; [done|].
  apply forallb_forall. intros e He.
  apply HQ. by eapply forallb_forall in F.
Qed.

Lemma emits_count Q P m s :
  emits Q m -> (forall e, Q e = true -> P e = false) ->
  count_events P (trace (snd (m s))) = count_events P (trace s).
Proof.
  intros Hm HQ. destruct (Hm s) as (t & -> & F).
  unfold count_events. rewrite List.filter_app, length_app.
  assert (List.filter P t = []) as ->; [|simpl; lia].
  induction t as [|e t IH]; [done|]. simpl in *.
  apply andb_prop in F as [Fe Ft].
  by rewrite (HQ e Fe), (IH Ft).
Qed.

Lemma keeps_pipeline_ret (a : A) : keeps_pipeline (ret a).
Proof. done. Qed.

Lemma keeps_pipeline_raise e : keeps_pipeline (@raise A e).
Proof. done. Qed.

Lemma keeps_pipeline_lift (r : result A) : keeps_pipeline (lift r).
Proof. done. Qed.

Lemma keeps_pipeline_bind m k :
  keeps_pipeline m -> (forall a, keeps_pipeline (k a)) ->
  keeps_pipeline (bind m k).
Proof.
  intros Hm Hk s. unfold bind. specialize (Hm s).
  destruct (m s) as [[a|e] s1]; simpl in *; [|done].
  by rewrite Hk.
Qed.

Lemma keeps_loaded_bind m k :
  keeps_loaded m -> (forall a, keeps_loaded (k a)) ->
  keeps_loaded (bind m k).
Proof.
  intros Hm Hk s Hs. unfold bind. specialize (Hm s Hs).
  destruct (m s) as [[a|e] s1]; simpl in *; [|done].
  by apply Hk.
Qed.

Lemma keeps_pipeline_loaded m : keeps_pipeline m -> keeps_loaded m.
Proof. intros Hm s Hs. unfold Loaded. by rewrite Hm. Qed.

End Frames.

Section FramesTry.

Context {A : Type}.
Implicit Types (Q : event -> bool) (m : M A) (h : exn -> M A).

Lemma emits_try Q m h :
  emits Q m -> (forall e, emits Q (h e)) -> emits Q (try_except m h).
Proof.
  intros Hm Hh s. unfold try_except.
  destruct (Hm s) as (t1 & E1 & F1).
  destruct (m s) as [[a|e] s1]; simpl in *.
  - by exists t1.
  - destruct (Hh e s1) as (t2 & E2 & F2).
    exists (t1 ++ t2)%list. rewrite E2, E1, app_assoc, forallb_app, F1, F2. done.
Qed.

Lemma keeps_pipeline_try m h :
  keeps_pipeline m -> (forall e, keeps_pipeline (h e)) ->
  keeps_pipeline (try_except m h).
Proof.
  intros Hm Hh s. unfold try_except. specialize (Hm s).
  destruct (m s) as [[a|e] s1]; simpl in *; [done|].
  by rewrite Hh.
Qed.

Lemma emits_call Q ev (oracle : list event -> A + exn) :
  Q ev = true -> emits Q (call ev oracle).
Proof.
  intros HQ s. exists [ev]. unfold call, bind, emit, get_trace. simpl.
  destruct (oracle _); simpl; by rewrite HQ.
Qed.

Lemma keeps_pipeline_call ev (oracle : list event -> A + exn) :
  keeps_pipeline (call ev oracle).
Proof.
  intros s. unfold call, bind, emit, get_trace. simpl.
  by destruct (oracle _).
Qed.

End FramesTry.

Lemma emits_emit Q ev : Q ev = true -> emits Q (emit ev).
Proof. intros HQ s. exists [ev]. simpl. by rewrite HQ. Qed.

Lemma keeps_pipeline_emit ev : keeps_pipeline (emit ev).
Proof. done. Qed.

Lemma emits_call_unit Q ev oracle : Q ev = true -> emits Q (call_unit ev oracle).
Proof.
  intros HQ s. exists [ev]. unfold call_unit, bind, emit, get_trace. simpl.
  destruct (oracle _); simpl; by rewrite HQ.
Qed.

Lemma keeps_pipeline_call_unit ev oracle : keeps_pipeline (call_unit ev oracle).
Proof.
  intros s. unfold call_unit, bind, emit, get_trace. simpl.
  by destruct (oracle _).
Qed.

Lemma emits_get_pipeline Q : emits Q get_pipeline.
Proof. intros s. exists []. by rewrite app_nil_r. Qed.

Lemma emits_set_pipeline Q p : emits Q (set_pipeline p).
Proof. intros s. exists []. simpl. by rewrite app_nil_r. Qed.

#[export] Hint Resolve emits_ret emits_raise emits_lift emits_emit
  emits_call emits_call_unit emits_get_pipeline emits_set_pipeline
  keeps_pipeline_ret keeps_pipeline_raise keeps_pipeline_lift
  keeps_pipeline_emit keeps_pipeline_call keeps_pipeline_call_unit : frame.

Lemma count_events_app P t1 t2 :
  count_events P (t1 ++ t2)%list = (count_events P t1 + count_events P t2)%nat.
Proof. unfold count_events. by rewrite List.filter_app, length_app. Qed.

Lemma count_events_cons P e t :
  count_events P (e :: t)
  = ((if P e then 1 else 0) + count_events P t)%nat.
Proof. unfold count_events. simpl. by destruct (P e). Qed.

Lemma count_events_nil P : count_events P [] = 0%nat.
Proof. done. Qed.

Ltac count :=
  rewrite ?count_events_app, ?count_events_cons, ?count_events_nil;
  simpl; try lia.

Ltac frame :=
  repeat first
    [ progress intros
    | apply emits_bind | apply keeps_pipeline_bind
    | apply emits_try | apply keeps_pipeline_try
    | solve [eauto with frame]
    | match goal with
      | |- emits _ (match ?x with _ => _ end) => destruct x
      | |- keeps_pipeline (match ?x with _ => _ end) => destruct x
      | |- emits _ (if ?x then _ else _) => destruct x
      | |- keeps_pipeline (if ?x then _ else _) => destruct x
      end ].

(** ** Facts about the generator *)

Section GeneratorFacts.

Variable w : World.
Variable cfg : Settings.

Lemma load_model_loaded s : Loaded s -> load_model w cfg s = (Ok tt, s).
Proof.
  unfold Loaded, load_model, bind, get_pipeline. simpl.
  by destruct (pipeline s).
Qed.

Lemma load_model_emits : emits load_events (load_model w cfg).
Proof. unfold load_model, update_pipeline. frame. Qed.

Lemma load_model_keeps_loaded : keeps_loaded (load_model w cfg).
Proof. intros s Hs. by rewrite load_model_loaded. Qed.

(** From an unloaded generator [load_model] asks for the weights, once,
    whatever happens next. *)
Lemma load_model_unloaded s :
  Unloaded s ->
  count_events is_load (trace (snd (load_model w cfg s)))
  = S (count_events is_load (trace s)).
Proof.
  unfold Unloaded, load_model, update_pipeline, call_unit, bind,
    get_pipeline, set_pipeline, emit, get_trace, ret, raise.
  intros ->. simpl.
  repeat (case_match; simplify_eq/=); count.
Qed.

(** Once [from_pretrained] has returned, [self.pipeline] is set, even
    if moving it to the device raises afterwards. *)
Lemma load_model_fetches s :
  from_pretrained w (trace s ++ [EvFromPretrained (sd3_model_path cfg)])
    (sd3_model_path cfg) = None ->
  Loaded (snd (load_model w cfg s)).
Proof.
  destruct (pipeline s) as [p|] eqn:Hp.
  { intros _. apply load_model_keeps_loaded. unfold Loaded. by rewrite Hp. }
  unfold Loaded, load_model, update_pipeline, call_unit, bind,
    get_pipeline, set_pipeline, emit, get_trace, ret, raise.
  rewrite Hp. simpl. intros ->. simpl.
  repeat (case_match; simplify_eq/=); done.
Qed.

Lemma ollama_client_generate_emits model request :
  emits is_ollama (ollama_client_generate w model request).
Proof.
  intros s. exists [EvOllamaGenerate model request].
  unfold ollama_client_generate, bind, emit, get_trace. simpl.
  by destruct (ollama_generate _ _ _ _).
Qed.

Lemma ollama_client_generate_keeps model request :
  keeps_pipeline (ollama_client_generate w model request).
Proof.
  intros s. unfold ollama_client_generate, bind, emit, get_trace. simpl.
  by destruct (ollama_generate _ _ _ _).
Qed.

Lemma enhance_prompt_emits p st : emits is_ollama (enhance_prompt w cfg p st).
Proof.
  unfold enhance_prompt. apply emits_try;
    [apply ollama_client_generate_emits | frame].
Qed.

Lemma enhance_prompt_keeps p st : keeps_pipeline (enhance_prompt w cfg p st).
Proof.
  unfold enhance_prompt. apply keeps_pipeline_try;
    [apply ollama_client_generate_keeps | frame].
Qed.


Lemma time_emits : emits clock_events (time w).
Proof. unfold time. frame. Qed.

Lemma time_keeps : keeps_pipeline (time w).
Proof. done. Qed.

Lemma empty_cache_keeps : keeps_pipeline empty_cache.
Proof. done. Qed.

Hint Resolve enhance_prompt_emits enhance_prompt_keeps time_keeps
  empty_cache_keeps : frame.

Lemma run_and_save_emits a p width height start :
  emits try_events (run_and_save w cfg a p width height start).
Proof.
  unfold run_and_save. frame;
    eapply emits_weaken; try apply time_emits; by intros [].
Qed.

Lemma run_and_save_keeps a p width height start :
  keeps_pipeline (run_and_save w cfg a p width height start).
Proof. unfold run_and_save. frame. Qed.

Lemma on_failure_keeps {A} e : keeps_pipeline (@on_failure A e).
Proof. unfold on_failure. destruct e; frame. Qed.

End GeneratorFacts.

Section GenerateFacts.

Variable w : World.
Variable cfg : Settings.

Hint Resolve enhance_prompt_emits enhance_prompt_keeps time_keeps
  empty_cache_keeps run_and_save_keeps : frame.

(** [generate] is its part before the [try], then the guarded part. *)
Lemma generate_unfold a s :
  generate w cfg a s =
  match before_try w cfg a s with
  | (Ok (p, (width, height), start), s1) =>
      try_except (run_and_save w cfg a p width height start) on_failure s1
  | (Raise e, s1) => (Raise e, s1)
  end.
Proof.
  unfold generate, bind.
  by destruct (before_try w cfg a s) as [[[[p [width height]] start]|e] s1].
Qed.

(** The events of [before_try]: the probe first, then nothing but
    loading, enhancing and clock reading. *)
Lemma before_try_trace a s :
  exists t,
    trace (snd (before_try w cfg a s)) = (trace s ++ EvGenerate a :: t)%list
    /\ forallb before_try_events t = true.
Proof.
  assert (emits before_try_events
    (load_model w cfg ;;;
     prompt <- (if arg_enhance_prompt a
                then enhance_prompt w cfg (arg_prompt a) (arg_style a)
                else match arg_style a with
                     | Some st =>
                         if Py.truthy st
                         then ret (arg_prompt a ++ ", " ++ st ++ " style")
                         else ret (arg_prompt a)
                     | None => ret (arg_prompt a)
                     end) ;;
     wh <- lift (get_image_size_tuple cfg (Some (arg_size a))) ;;
     start_time <- time w ;;
     ret (prompt, wh, start_time))) as Hrest.
  { apply emits_bind.
    - eapply emits_weaken; [|apply load_model_emits].
      intros e He. unfold before_try_events. by rewrite He.
    - intros _. apply emits_bind.
      + destruct (arg_enhance_prompt a).
        * eapply emits_weaken; [|apply enhance_prompt_emits].
          intros e He. unfold before_try_events. rewrite He.
          by rewrite orb_true_r.
        * frame.
      + intros p. apply emits_bind; [frame|]. intros wh.
        apply emits_bind; [|frame].
        eapply emits_weaken; [|apply time_emits].
        intros e He. unfold before_try_events. rewrite He.
        by rewrite orb_true_r. }
  unfold before_try. unfold bind at 1. simpl.
  destruct (Hrest {| pipeline := pipeline s;
                     trace := trace s ++ [EvGenerate a] |}) as (t & E & F).
  exists t. rewrite E. simpl. by rewrite <- app_assoc.
Qed.

Lemma before_try_no_run a s :
  count_events is_run (trace (snd (before_try w cfg a s)))
  = count_events is_run (trace s).
Proof.
  destruct (before_try_trace a s) as (t & -> & F).
  count. assert (count_events is_run t = 0%nat) as ->; [|lia].
  induction t as [|e t IH]; [done|]. simpl in F.
  apply andb_prop in F as [Fe Ft]. count. rewrite (IH Ft).
  by destruct e.
Qed.

Lemma before_try_no_empty_cache a s :
  count_events is_empty_cache (trace (snd (before_try w cfg a s)))
  = count_events is_empty_cache (trace s).
Proof.
  destruct (before_try_trace a s) as (t & -> & F).
  count. assert (count_events is_empty_cache t = 0%nat) as ->; [|lia].
  induction t as [|e t IH]; [done|]. simpl in F.
  apply andb_prop in F as [Fe Ft]. count. rewrite (IH Ft).
  by destruct e.
Qed.

(** After its first statement, [generate] leaves [self.pipeline] alone. *)
Lemma generate_pipeline a s :
  pipeline (snd (generate w cfg a s))
  = pipeline (snd (load_model w cfg
                     {| pipeline := pipeline s;
                        trace := trace s ++ [EvGenerate a] |})).
Proof.
  unfold generate, before_try.
  unfold bind at 1 2 3. simpl.
  destruct (load_model w cfg _) as [[[]|e] s1]; simpl; [|done].
  match goal with
  | |- context [bind ?m ?k s1] =>
      assert (keeps_pipeline (bind m k)) as Hk by frame;
      specialize (Hk s1); destruct (bind m k s1) as [[x|e] s2]
  end; simpl in *; [|done].
  destruct x as [[p [width height]] start]. rewrite <- Hk.
  apply keeps_pipeline_try; [frame|]. intros e. apply on_failure_keeps.
Qed.

Lemma generate_keeps_loaded a : keeps_loaded (generate w cfg a).
Proof.
  intros s Hs. unfold Loaded. rewrite generate_pipeline.
  by apply load_model_keeps_loaded.
Qed.

End GenerateFacts.

(** ** The model handle: loading and unloading *)

Section ModelHandle.

Variable w : World.
Variable cfg : Settings.

Lemma load_model_ok_loaded s u s1 :
  load_model w cfg s = (Ok u, s1) -> Loaded s1.
Proof.
  destruct (pipeline s) as [p|] eqn:Hp.
  { rewrite load_model_loaded by (unfold Loaded; congruence).
    intros [= _ <-]. unfold Loaded. congruence. }
  unfold Loaded, load_model, update_pipeline, call_unit, bind,
    get_pipeline, set_pipeline, emit, get_trace, ret, raise.
  rewrite Hp. simpl.
  repeat (case_match; simplify_eq/=); intros; by simplify_eq/=.
Qed.

(** C5. [load_model] is idempotent. On a loaded generator it does
    nothing and changes nothing; a call that returned leaves the
    generator such that the next call does nothing; and from an unloaded
    generator two calls in a row ask for the weights exactly once. *)
Theorem load_model_idempotent s :
  (Loaded s -> load_model w cfg s = (Ok tt, s)) /\
  (forall s1, load_model w cfg s = (Ok tt, s1) ->
              load_model w cfg s1 = (Ok tt, s1)) /\
  (Unloaded s ->
   count_events is_load
     (trace (snd ((load_model w cfg ;;; load_model w cfg) s)))
   = S (count_events is_load (trace s))).
Proof.
  split; [apply load_model_loaded|]. split.
  - intros s1 H. apply load_model_loaded. by eapply load_model_ok_loaded.
  - intros Hs. pose proof (load_model_unloaded w cfg s Hs) as Hc.
    unfold bind. destruct (load_model w cfg s) as [[[]|e] s1] eqn:E;
      simpl in *; [|done].
    rewrite load_model_loaded by (by eapply load_model_ok_loaded). done.
Qed.

Lemma unload_model_unloaded s : Unloaded (snd (unload_model w s)).
Proof.
  unfold Unloaded, unload_model, bind, get_pipeline, set_pipeline,
    empty_cache, emit, ret. simpl.
  destruct (pipeline s) eqn:Hp; simpl; [|done].
  by destruct (cuda_is_available w).
Qed.

End ModelHandle.

(** ** The prompt enhancer *)

Section Enhancer.

Variable w : World.
Variable cfg : Settings.

Lemma length_append (a b : string) :
  String.length (a ++ b) = (String.length a + String.length b)%nat.
Proof.
  induction a as [|c a IH]; [done|].
  rewrite PyFacts.append_cons. simpl. by rewrite IH.
Qed.

Lemma prefix_append (a b : string) : String.prefix a (a ++ b) = true.
Proof.
  induction a as [|c a IH]; [by destruct b|].
  rewrite PyFacts.append_cons. simpl.
  by destruct (ascii_dec c c).
Qed.

(** C4. [enhance_prompt] never raises. When the text service fails, by
    raising or by answering with something [response['response'].strip()]
    cannot digest, the result is the prompt followed by the fixed
    qualifiers: not empty, beginning with the prompt, longer than it. *)
Theorem enhance_prompt_never_raises basic_prompt style_preference s :
  let request := enhancement_request basic_prompt style_preference in
  let s' := {| pipeline := pipeline s;
               trace := trace s ++ [EvOllamaGenerate
                                      (prompt_enhancer_model cfg) request] |} in
  let answer :=
    ollama_generate w (trace s') (prompt_enhancer_model cfg) request in
  let fallback := basic_prompt ++ fallback_qualifiers in
  (exists text,
     enhance_prompt w cfg basic_prompt style_preference s = (Ok text, s')) /\
  (forall e, answer = OllamaRaises e \/ answer = OllamaMalformed e ->
     enhance_prompt w cfg basic_prompt style_preference s
     = (Ok fallback, s')) /\
  fallback <> "" /\
  String.prefix basic_prompt fallback = true /\
  (String.length basic_prompt < String.length fallback)%nat.
Proof.
  intros request s' answer fallback.
  assert (enhance_prompt w cfg basic_prompt style_preference s =
          match answer with
          | OllamaResponse text => (Ok (Py.strip text), s')
          | _ => (Ok fallback, s')
          end) as Heq.
  { unfold enhance_prompt, try_except, ollama_client_generate, bind, emit,
      get_trace, ret, raise. subst answer s' fallback request. simpl.
    by destruct (ollama_generate _ _ _ _). }
  assert (String.length basic_prompt < String.length fallback)%nat as Hlen.
  { unfold fallback. rewrite length_append. simpl. lia. }
  repeat split.
  - rewrite Heq. destruct answer; eauto.
  - intros e [He|He]; rewrite Heq, He; done.
  - intros Hf. rewrite Hf in Hlen. simpl in Hlen. lia.
  - apply prefix_append.
  - done.
Qed.

End Enhancer.

(** ** One generation *)

Section Generation.

Variable w : World.
Variable cfg : Settings.

Lemma run_and_save_raises a p width height start s1 e :
  pipeline_call w (trace s1 ++ [EvPipeline (args_of a p width height)])
    (args_of a p width height) = inr e ->
  run_and_save w cfg a p width height start s1
  = (Raise e, {| pipeline := pipeline s1;
                 trace := trace s1 ++ [EvPipeline (args_of a p width height)] |}).
Proof.
  intros H. unfold run_and_save, call, bind at 1 2 3, emit, get_trace.
  simpl. unfold args_of in H. by rewrite H.
Qed.

(** C7. When the pipeline call raises, [generate] raises the same
    exception after that single call: the pipeline was invoked once, not
    again. For [OutOfMemoryError], and only for it, the cache is emptied
    in between; the pipeline object stays. *)
Theorem generate_out_of_memory a s p width height start s1 e :
  before_try w cfg a s = (Ok (p, (width, height), start), s1) ->
  pipeline_call w (trace s1 ++ [EvPipeline (args_of a p width height)])
    (args_of a p width height) = inr e ->
  let s' := {| pipeline := pipeline s1;
               trace := trace s1 ++
                        EvPipeline (args_of a p width height) ::
                        match e with
                        | OutOfMemoryError => [EvEmptyCache]
                        | _ => []
                        end |} in
  generate w cfg a s = (Raise e, s') /\
  count_events is_run (trace s') = S (count_events is_run (trace s)) /\
  count_events is_empty_cache (trace s')
  = ((if e is OutOfMemoryError then 1 else 0)
     + count_events is_empty_cache (trace s))%nat.
Proof.
  intros Hb Hc s'.
  pose proof (before_try_no_run w cfg a s) as Hr.
  pose proof (before_try_no_empty_cache w cfg a s) as Hx.
  rewrite Hb in Hr, Hx. simpl in Hr, Hx.
  split; [|split].
  - rewrite generate_unfold, Hb. unfold try_except.
    rewrite (run_and_save_raises _ _ _ _ _ _ _ Hc).
    unfold s', on_failure, empty_cache, bind, emit, raise.
    destruct e; simpl; try done.
    by rewrite <- app_assoc.
  - unfold s'. simpl. destruct e; count.
  - unfold s'. simpl. destruct e; count.
Qed.

End Generation.

(** ** Batches *)

Section Batch.

Variable w : World.
Variable cfg : Settings.

Lemma on_failure_raises {A} e s : exists s', @on_failure A e s = (Raise e, s').
Proof.
  unfold on_failure, empty_cache, bind, emit, raise.
  destruct e; simpl; eauto.
Qed.

(** A [generate] that returns has gone through the [try] without an
    exception. *)
Lemma generate_ok a s r s' :
  generate w cfg a s = (Ok r, s') ->
  exists p width height start s1,
    before_try w cfg a s = (Ok (p, (width, height), start), s1) /\
    run_and_save w cfg a p width height start s1 = (Ok r, s').
Proof.
  rewrite generate_unfold.
  destruct (before_try w cfg a s) as [[[[p [width height]] start]|e] s1];
    [|done].
  unfold try_except.
  destruct (run_and_save w cfg a p width height start s1) as [[r'|e] s2] eqn:E.
  - intros [= <- <-]. by exists p, width, height, start, s1.
  - destruct (on_failure_raises (A:=GenerationResult) e s2) as [s3 ->]. done.
Qed.

Lemma generate_ok_no_empty_cache a s r s' :
  generate w cfg a s = (Ok r, s') ->
  count_events is_empty_cache (trace s') = count_events is_empty_cache (trace s).
Proof.
  intros (p & width & height & start & s1 & Hb & Hr)%generate_ok.
  pose proof (before_try_no_empty_cache w cfg a s) as H1.
  rewrite Hb in H1. simpl in H1. rewrite <- H1.
  pose proof (emits_count try_events is_empty_cache _ s1
                (run_and_save_emits w cfg a p width height start)) as H2.
  rewrite Hr in H2. simpl in H2. apply H2. by intros [].
Qed.

(** A [generate] that raises has emptied the cache once when the
    failure is [OutOfMemoryError] from inside the [try], and not at all
    otherwise. *)
Lemma generate_raise_empty_cache a s e s' :
  generate w cfg a s = (Raise e, s') ->
  count_events is_empty_cache (trace s')
  = (clears_on_failure w cfg a s e
     + count_events is_empty_cache (trace s))%nat.
Proof.
  rewrite generate_unfold. unfold clears_on_failure.
  pose proof (before_try_no_empty_cache w cfg a s) as H1.
  destruct (before_try w cfg a s) as [[[[p [width height]] start]|e0] s1];
    simpl in H1.
  - unfold try_except.
    pose proof (emits_count try_events is_empty_cache _ s1
                  (run_and_save_emits w cfg a p width height start)) as H2.
    destruct (run_and_save w cfg a p width height start s1) as [[r'|e1] s2];
      [done|]. simpl in H2. rewrite <- H1, <- H2 by (by intros []).
    unfold on_failure, empty_cache, bind, emit, raise.
    destruct e1; simpl; intros [= <- <-]; simpl; [done..| |done|done].
    by count.
  - intros [= <- <-]. by rewrite H1.
Qed.

Lemma clear_between_spec s :
  (if cuda_is_available w then empty_cache else ret tt) s
  = (Ok tt, clear_between w s).
Proof. unfold clear_between. by destruct (cuda_is_available w). Qed.

Lemma generate_batch_from_cons results p rest k s :
  generate_batch_from w cfg results (p :: rest) k s =
  match generate w cfg (with_kwargs p k) s with
  | (Ok r, s1) =>
      generate_batch_from w cfg (results ++ [r]) rest k (clear_between w s1)
  | (Raise e, s1) => (Raise e, s1)
  end.
Proof.
  simpl. unfold bind at 1.
  destruct (generate w cfg (with_kwargs p k) s) as [[r|e] s1]; [|done].
  unfold bind. by rewrite clear_between_spec.
Qed.

(** A batch that returns: the list built so far, extended in order. *)
Lemma generate_batch_from_ok prompts : forall results k s rs s',
  generate_batch_from w cfg results prompts k s = (Ok rs, s') ->
  exists rs', rs = (results ++ rs')%list /\ batch_run w cfg k s prompts rs' s'.
Proof.
  induction prompts as [|p rest IH]; intros results k s rs s'.
  - intros [= <- <-]. exists []. split; [by rewrite app_nil_r | constructor].
  - rewrite generate_batch_from_cons.
    destruct (generate w cfg (with_kwargs p k) s) as [[r|e] s1] eqn:E; [|done].
    intros (rs' & -> & Hrun)%IH. exists (r :: rs').
    split; [by rewrite <- app_assoc | by econstructor].
Qed.

Lemma batch_run_ok k s prompts rs s' : forall results,
  batch_run w cfg k s prompts rs s' ->
  generate_batch_from w cfg results prompts k s = (Ok (results ++ rs)%list, s').
Proof.
  intros results Hrun. revert results.
  induction Hrun as [s|s p r s1 rest rs s2 Hg Hrun IH]; intros results.
  - simpl. by rewrite app_nil_r.
  - rewrite generate_batch_from_cons, Hg, IH. by rewrite <- app_assoc.
Qed.

(** A batch that raises: some items went through, the next one raised,
    and that is where the batch ended. *)
Lemma generate_batch_from_raise prompts : forall results k s e s',
  generate_batch_from w cfg results prompts k s = (Raise e, s') ->
  exists done_items p rest rs s1,
    prompts = (done_items ++ p :: rest)%list /\
    batch_run w cfg k s done_items rs s1 /\
    generate w cfg (with_kwargs p k) s1 = (Raise e, s').
Proof.
  induction prompts as [|p rest IH]; intros results k s e s'; [done|].
  rewrite generate_batch_from_cons.
  destruct (generate w cfg (with_kwargs p k) s) as [[r|e0] s1] eqn:E.
  - intros (done_items & p' & rest' & rs & s2 & -> & Hrun & Hg)%IH.
    exists (p :: done_items), p', rest', (r :: rs), s2.
    split; [done|]. split; [by econstructor | done].
  - intros [= <- <-]. exists [], p, rest, [], s.
    split; [done|]. split; [constructor | done].
Qed.

Lemma batch_run_clears k s prompts rs s' :
  batch_run w cfg k s prompts rs s' ->
  count_events is_empty_cache (trace s')
  = ((if cuda_is_available w then length prompts else 0)
     + count_events is_empty_cache (trace s))%nat.
Proof.
  induction 1 as [s|s p r s1 rest rs s2 Hg Hrun IH].
  - by destruct (cuda_is_available w).
  - rewrite IH. apply generate_ok_no_empty_cache in Hg.
    unfold clear_between. destruct (cuda_is_available w); simpl; count.
Qed.

End Batch.

Section BatchClaims.

Variable w : World.
Variable cfg : Settings.

Lemma batch_run_then_raise k s done_items rs s1 : forall results p rest e s2,
  batch_run w cfg k s done_items rs s1 ->
  generate w cfg (with_kwargs p k) s1 = (Raise e, s2) ->
  generate_batch_from w cfg results (done_items ++ p :: rest) k s
  = (Raise e, s2).
Proof.
  intros results p rest e s2 Hrun Hg. revert results.
  induction Hrun as [s|s p' r s1 rest' rs s3 Hg' Hrun IH]; intros results.
  - simpl app. by rewrite generate_batch_from_cons, Hg.
  - rewrite <- app_comm_cons, generate_batch_from_cons, Hg'. by apply IH.
Qed.

(** C6. [generate_batch] takes the prompts in input order, each through
    [generate] in the state the previous one left; it returns exactly
    when every item succeeded. When an item raises, the batch raises that
    very exception and ends in the state that item left: nothing after it
    is touched. *)
Theorem generate_batch_in_order_aborts prompts k s :
  (forall rs s',
     generate_batch w cfg prompts k s = (Ok rs, s')
     <-> batch_run w cfg k s prompts rs s') /\
  (forall e s',
     generate_batch w cfg prompts k s = (Raise e, s') ->
     exists done_items p rest rs s1,
       prompts = (done_items ++ p :: rest)%list /\
       batch_run w cfg k s done_items rs s1 /\
       generate w cfg (with_kwargs p k) s1 = (Raise e, s')) /\
  (forall done_items p rest rs s1 e s2,
     prompts = (done_items ++ p :: rest)%list ->
     batch_run w cfg k s done_items rs s1 ->
     generate w cfg (with_kwargs p k) s1 = (Raise e, s2) ->
     generate_batch w cfg prompts k s = (Raise e, s2)).
Proof.
  unfold generate_batch. split; [|split].
  - intros rs s'. split.
    + by intros (rs' & -> & Hrun)%generate_batch_from_ok.
    + intros Hrun. by rewrite (batch_run_ok _ _ _ _ _ _ _ [] Hrun).
  - intros e s'. apply generate_batch_from_raise.
  - intros done_items p rest rs s1 e s2 -> Hrun Hg.
    by eapply batch_run_then_raise.
Qed.

(** C2, as the code has it. A batch that returns has emptied the cache
    once per item when CUDA is available, and never otherwise. A batch
    that raises has run the items before the failing one, each followed
    by that clearing, and the failing one, which is followed by none: the
    cache has been emptied once per item that succeeded when CUDA is
    available, plus the one time [generate] does it itself when the
    failure is [OutOfMemoryError] from inside its [try]. The count is
    that of the very run: whenever the items before [p] succeed and [p]
    raises, the batch ends there with exactly that many clearings. *)
Theorem generate_batch_cache_clears prompts k s :
  (forall rs s',
     generate_batch w cfg prompts k s = (Ok rs, s') ->
     count_events is_empty_cache (trace s')
     = ((if cuda_is_available w then length prompts else 0)
        + count_events is_empty_cache (trace s))%nat) /\
  (forall e s',
     generate_batch w cfg prompts k s = (Raise e, s') ->
     exists done_items p rest rs s1,
       prompts = (done_items ++ p :: rest)%list /\
       batch_run w cfg k s done_items rs s1 /\
       generate w cfg (with_kwargs p k) s1 = (Raise e, s') /\
       count_events is_empty_cache (trace s')
       = (clears_on_failure w cfg (with_kwargs p k) s1 e
          + (if cuda_is_available w then length done_items else 0)
          + count_events is_empty_cache (trace s))%nat) /\
  (forall done_items p rest rs s1 e s2,
     prompts = (done_items ++ p :: rest)%list ->
     batch_run w cfg k s done_items rs s1 ->
     generate w cfg (with_kwargs p k) s1 = (Raise e, s2) ->
     generate_batch w cfg prompts k s = (Raise e, s2) /\
     count_events is_empty_cache (trace s2)
     = (clears_on_failure w cfg (with_kwargs p k) s1 e
        + (if cuda_is_available w then length done_items else 0)
        + count_events is_empty_cache (trace s))%nat).
Proof.
  unfold generate_batch. split; [|split].
  - intros rs s' (rs' & -> & Hrun)%generate_batch_from_ok.
    by eapply batch_run_clears.
  - intros e s'
      (done_items & p & rest & rs & s1 & -> & Hrun & Hg)%generate_batch_from_raise.
    exists done_items, p, rest, rs, s1.
    split; [done|]. split; [done|]. split; [done|].
    apply batch_run_clears in Hrun.
    apply generate_raise_empty_cache in Hg. rewrite Hg, Hrun. lia.
  - intros done_items p rest rs s1 e s2 -> Hrun Hg. split.
    + by eapply batch_run_then_raise.
    + apply batch_run_clears in Hrun.
      apply generate_raise_empty_cache in Hg. rewrite Hg, Hrun. lia.
Qed.

End BatchClaims.

(** ** The size string *)

Section SizeClaims.

Variable w : World.
Variable cfg : Settings.


(** A size string written from two positive numbers is read back as
    those numbers, or refused for its length; it is never read as another
    pair. *)
Lemma get_image_size_tuple_decimal width height r :
  0 < width -> 0 < height ->
  get_image_size_tuple cfg
    (Some (Py.str_int width ++ "x" ++ Py.str_int height))
  = Ok r ->
  r = (width, height).
Proof.
  intros Hw Hh.
  destruct width as [|pw|pw]; [lia| |lia].
  destruct height as [|ph|ph]; [lia| |lia].
  unfold get_image_size_tuple.
  assert (Py.truthy (Py.str_int (Z.pos pw) ++ "x" ++ Py.str_int (Z.pos ph))
          = true) as ->.
  { pose proof (PyFacts.str_int_pos_nonempty pw).
    by destruct (Py.str_int (Z.pos pw)). }
  destruct (PyFacts.split_digits _ _ (PyFacts.str_int_pos_digits pw)
              (PyFacts.str_int_pos_digits ph)) as [_ ->].
  unfold unpack_two_ints.
  destruct (Py.int (Py.str_int (Z.pos pw))) as [n|] eqn:En; [|done].
  destruct (Py.int (Py.str_int (Z.pos ph))) as [m|] eqn:Em; [|done].
  apply PyFacts.int_str_int_inv in En as ->.
  apply PyFacts.int_str_int_inv in Em as ->.
  by intros [= <-].
Qed.

Lemma before_try_load_count a s :
  count_events is_load (trace (snd (before_try w cfg a s)))
  = count_events is_load
      (trace (snd (load_model w cfg
                     {| pipeline := pipeline s;
                        trace := trace s ++ [EvGenerate a] |}))).
Proof.
  unfold before_try. unfold bind at 1. simpl. unfold bind at 1.
  destruct (load_model w cfg _) as [[[]|e] s0]; [|done]. simpl.
  apply (emits_count (fun e => is_ollama e || clock_events e)); [|by intros []].
  apply emits_bind.
  - destruct (arg_enhance_prompt a).
    + eapply emits_weaken; [|apply enhance_prompt_emits].
      by intros e ->.
    + frame.
  - intros p. apply emits_bind; [frame|]. intros wh.
    apply emits_bind; [|frame].
    eapply emits_weaken; [|apply time_emits].
    intros e ->. apply orb_true_r.
Qed.


End SizeClaims.

(** ** The result of a successful generation *)

Section ResultClaims.

Variable w : World.
Variable cfg : Settings.

Lemma path_join_length directory filename :
  (String.length filename <= String.length (path_join directory filename))%nat.
Proof.
  unfold path_join. repeat case_match; rewrite ?length_append; lia.
Qed.

Lemma filename_of_length timestamp width height :
  (0 < String.length (filename_of timestamp width height))%nat.
Proof. unfold filename_of. rewrite length_append. simpl. lia. Qed.

(** What the [try] body returns when nothing in it raises. *)
Lemma run_and_save_ok a p width height start s1 r s' :
  run_and_save w cfg a p width height start s1 = (Ok r, s') ->
  exists t,
    t `prefix_of` trace s' /\
    image_path r
    = path_join (output_path cfg)
        (filename_of (int_of_float (time_time w t)) width height) /\
    size r = Py.str_int width ++ "x" ++ Py.str_int height /\
    steps r = arg_steps a /\
    guidance_scale r = arg_guidance_scale a /\
    prompt r = p /\
    (exists img, image_data r = encode_png img).
Proof.
  unfold run_and_save, call, call_unit, time, bind, emit, get_trace, ret,
    raise. simpl.
  destruct (pipeline_call w _ _) as [img|e]; simpl; [|done].
  destruct (image_save w _ _) as [e|]; simpl; [done|].
  intros [= <- <-]. simpl.
  eexists. split; [|split; [reflexivity|]].
  - by apply prefix_app_r.
  - repeat split; eauto.
Qed.

(** The [try] body that went through, event by event: the pipeline
    call gave the image, the second clock reading after it names the
    file, and the save of that file is the last event. *)
Lemma run_and_save_returns a p width height start s1 r s' :
  run_and_save w cfg a p width height start s1 = (Ok r, s') ->
  exists img,
    pipeline_call w (trace s1 ++ [EvPipeline (args_of a p width height)])
      (args_of a p width height) = inl img /\
    trace s'
    = ((trace s1 ++ [EvPipeline (args_of a p width height)])
       ++ [EvTime; EvTime; EvSave (image_path r)])%list /\
    image_path r
    = path_join (output_path cfg)
        (filename_of
           (int_of_float
              (time_time w
                 ((trace s1 ++ [EvPipeline (args_of a p width height)])
                  ++ [EvTime; EvTime])))
           width height) /\
    image_data r = encode_png img /\
    prompt r = p.
Proof.
  unfold run_and_save, call, call_unit, time, bind, emit, get_trace, ret,
    raise, args_of. simpl.
  destruct (pipeline_call w _ _) as [img|e] eqn:Hcall; simpl; [|done].
  destruct (image_save w _ _) as [e|]; simpl; [done|].
  intros [= <- <-]. simpl. exists img.
  rewrite <- !app_assoc. simpl. repeat split; done.
Qed.

(** C8. A [generate] that returns for the size string of positive
    [width] and [height] gives back that size string, the requested steps
    and guidance scale, a non-empty path whose file name is
    [generated_<timestamp>_<width>x<height>.png], and a non-empty byte
    buffer. The timestamp is the whole part of the clock reading taken
    just before the file is saved, after the pipeline has returned, and
    the bytes are the PNG encoding of the image the pipeline returned for
    the reported prompt at [width] by [height]. *)
Theorem generate_result_fields a s r s' width height :
  0 < width -> 0 < height ->
  arg_size a = Py.str_int width ++ "x" ++ Py.str_int height ->
  generate w cfg a s = (Ok r, s') ->
  exists t img,
    forallb before_try_events t = true /\
    trace s'
    = (trace_at_stamp s a t (prompt r) width height
       ++ [EvSave (image_path r)])%list /\
    pipeline_call w (trace_at_run s a t (prompt r) width height)
      (args_of a (prompt r) width height) = inl img /\
    size r = arg_size a /\
    steps r = arg_steps a /\
    guidance_scale r = arg_guidance_scale a /\
    image_path r
    = path_join (output_path cfg)
        (filename_of
           (int_of_float
              (time_time w (trace_at_stamp s a t (prompt r) width height)))
           width height) /\
    image_path r <> "" /\
    image_data r = encode_png img /\
    image_data r <> [].
Proof.
  intros Hw Hh Hsz (p & width' & height' & start & s1 & Hb & Hr)%generate_ok.
  assert (get_image_size_tuple cfg (Some (arg_size a))
          = Ok (width', height')) as Hparse.
  { revert Hb. unfold before_try, bind, lift, ret, time, emit, get_trace.
    repeat (case_match; simplify_eq/=); intros; by simplify_eq/=. }
  rewrite Hsz in Hparse.
  apply get_image_size_tuple_decimal in Hparse; [|done..].
  injection Hparse as -> ->.
  destruct (before_try_trace w cfg a s) as (t & Ht & Ft).
  rewrite Hb in Ht. simpl in Ht.
  pose proof Hr as (_ & _ & _ & Hsize & Hsteps & Hgs & _)%run_and_save_ok.
  apply run_and_save_returns in Hr as (img & Hcall & Htr & Hpath & Himg & <-).
  assert ((trace s1 ++ [EvPipeline (args_of a (prompt r) width height)])%list
          = trace_at_run s a t (prompt r) width height) as Hrun.
  { unfold trace_at_run. rewrite Ht, <- app_assoc. done. }
  rewrite Hrun in Hcall, Htr, Hpath.
  exists t, img. split; [done|]. split.
  { rewrite Htr. unfold trace_at_stamp. by rewrite <- app_assoc. }
  split; [done|]. split; [by rewrite Hsz|]. split; [done|]. split; [done|].
  split; [done|]. split.
  - intros Hempty. rewrite Hempty in Hpath.
    pose proof (path_join_length (output_path cfg)
                  (filename_of
                     (int_of_float
                        (time_time w
                           (trace_at_stamp s a t (prompt r) width height)))
                     width height)) as Hlen.
    pose proof (filename_of_length
                  (int_of_float
                     (time_time w
                        (trace_at_stamp s a t (prompt r) width height)))
                  width height).
    unfold trace_at_stamp in *.
    rewrite <- Hpath in Hlen. simpl in Hlen. lia.
  - split; [done|]. by rewrite Himg.
Qed.

End ResultClaims.

(** ** The dispatch layer *)

Lemma subscript_keeps arguments key : keeps_pipeline (subscript arguments key).
Proof. unfold subscript. by destruct (arguments !! key). Qed.

Lemma as_str_keeps key v : keeps_pipeline (as_str key v).
Proof. by destruct v. Qed.

Lemma as_int_keeps key v : keeps_pipeline (as_int key v).
Proof. by destruct v. Qed.

Lemma as_bool_keeps key v : keeps_pipeline (as_bool key v).
Proof. by destruct v. Qed.

Lemma as_opt_str_keeps key v : keeps_pipeline (as_opt_str key v).
Proof. destruct v as [[]|]; done. Qed.

Lemma image_content_keeps data mimeType :
  keeps_pipeline (image_content data mimeType).
Proof. unfold image_content. by destruct (Py.decode data). Qed.

Lemma image_content_emits Q data mimeType :
  emits Q (image_content data mimeType).
Proof.
  unfold image_content.
  destruct (Py.decode data); [apply emits_ret | apply emits_raise].
Qed.

(** PNG bytes are not UTF-8, their first byte is not: an [ImageContent]
    cannot be built from an encoded image. *)
Lemma image_content_png img mimeType s :
  image_content (encode_png img) mimeType s = (Raise invalid_image_data, s).
Proof. reflexivity. Qed.

#[export] Hint Resolve subscript_keeps as_str_keeps as_int_keeps as_bool_keeps
  as_opt_str_keeps image_content_keeps keeps_pipeline_loaded generate_keeps_loaded
  load_model_keeps_loaded enhance_prompt_keeps : frame.

Ltac loaded :=
  repeat first
    [ progress intros
    | solve [eauto with frame]
    | apply keeps_loaded_bind
    | match goal with
      | |- keeps_loaded (if ?x then _ else _) => destruct x
      | |- keeps_loaded (match ?x with _ => _ end) => destruct x
      end ].

Section Lifecycle.

Variable w : World.
Variable cfg : Settings.

Lemma generate_batch_from_keeps_loaded prompts : forall results k,
  keeps_loaded (generate_batch_from w cfg results prompts k).
Proof.
  induction prompts as [|p rest IH]; intros results k; simpl; loaded.
Qed.

Lemma handle_call_tool_keeps_loaded name arguments :
  keeps_loaded (handle_call_tool w cfg name arguments).
Proof.
  unfold handle_call_tool, create_complete_post, analyze_performance.
  loaded.
Qed.

(** C10. Once the model is loaded, it stays loaded until [unload_model]:
    [generate] keeps a loaded generator loaded whatever its outcome, and a
    [generate] during which [from_pretrained] returned ends loaded as
    well; in every case [self.pipeline] after [generate] is what
    [load_model], its first step, left. [load_model], [enhance_prompt],
    [generate_batch] and [handle_call_tool] keep a loaded generator
    loaded too, and [unload_model] ends unloaded. *)
Theorem loaded_until_unload a s :
  (Loaded s -> Loaded (snd (generate w cfg a s))) /\
  (from_pretrained w
     (trace s ++ [EvGenerate a; EvFromPretrained (sd3_model_path cfg)])
     (sd3_model_path cfg) = None ->
   Loaded (snd (generate w cfg a s))) /\
  pipeline (snd (generate w cfg a s))
  = pipeline (snd (load_model w cfg
                     {| pipeline := pipeline s;
                        trace := trace s ++ [EvGenerate a] |})) /\
  keeps_loaded (load_model w cfg) /\
  (forall p st, keeps_loaded (enhance_prompt w cfg p st)) /\
  (forall prompts k, keeps_loaded (generate_batch w cfg prompts k)) /\
  (forall name arguments,
     keeps_loaded (handle_call_tool w cfg name arguments)) /\
  Unloaded (snd (unload_model w s)).
Proof.
  split; [apply generate_keeps_loaded|].
  split.
  { intros Hf. unfold Loaded. rewrite generate_pipeline.
    apply load_model_fetches. simpl. by rewrite <- app_assoc. }
  split; [apply generate_pipeline|].
  split; [apply load_model_keeps_loaded|].
  split; [intros; apply keeps_pipeline_loaded, enhance_prompt_keeps|].
  split; [intros; apply generate_batch_from_keeps_loaded|].
  split; [apply handle_call_tool_keeps_loaded|].
  apply unload_model_unloaded.
Qed.

End Lifecycle.

(** Membership in a list that is written out. *)
Ltac in_list := apply list_elem_of_In; simpl; tauto.

(** Case distinction on the next [name == "..."] test of the handler. *)
Ltac case_name name :=
  match goal with
  | |- context [String.eqb name ?l] =>
      destruct (String.eqb_spec name l) as [->|?]
  end.

Section Dispatch.

Variable w : World.
Variable cfg : Settings.

Lemma registered_find_tool name : registered name <-> is_Some (find_tool name).
Proof.
  unfold registered, find_tool. simpl.
  repeat (case_name name;
          [split; [intros _; by eexists | intros _; in_list]|]).
  split; [|by intros [? ?]].
  intros H. apply list_elem_of_In in H. simpl in H. intuition congruence.
Qed.

(** C3. A call with a name that is not in the registry raises the
    "Unknown tool" [ValueError]; a call of a registered tool that lacks a
    required argument raises [KeyError] for the first required argument
    it lacks. In both cases the state is untouched: nothing was loaded,
    generated or sent to a collaborator. *)
Theorem dispatch_validation name arguments s :
  (~ registered name ->
   handle_call_tool w cfg name arguments s
   = (Raise (ValueError (UnknownTool name)), s)) /\
  (forall t key,
     find_tool name = Some t -> key ∈ required t ->
     arguments !! key = None ->
     exists key',
       key' ∈ required t /\ arguments !! key' = None /\
       handle_call_tool w cfg name arguments s = (Raise (KeyError key'), s)).
Proof.
  split.
  - intros Hn. unfold handle_call_tool.
    repeat (case_name name;
            [exfalso; apply Hn; unfold registered; simpl; in_list|]).
    done.
  - intros t key. unfold find_tool, handle_call_tool. simpl.
    repeat case_name name; intros Ht Hkey Hnone; simplify_eq/=.
    all: repeat match goal with
           | H : _ ∈ _ :: _ |- _ => apply elem_of_cons in H; destruct H as [->|H]
           | H : _ ∈ [] |- _ => by apply elem_of_nil in H
           end.
    all: unfold subscript, bind, raise.
    all: repeat match goal with
           | |- context [?m !! ?k] =>
               lazymatch goal with
               | H : m !! k = _ |- _ => rewrite H
               | _ => destruct (m !! k) eqn:?
               end
           end.
    all: try (eexists; split; [|split; [|reflexivity]]; [in_list | done]).
Qed.

End Dispatch.

Section GenerateImage.

Variable w : World.
Variable cfg : Settings.

Lemma as_opt_str_pure key v s : exists r, as_opt_str key v s = (r, s).
Proof. destruct v as [[]|]; simpl; unfold bind, ret, raise; simpl; eauto. Qed.

Lemma on_failure_emits {A} e : emits not_generate (@on_failure A e).
Proof. unfold on_failure, empty_cache. destruct e; frame. Qed.

(** Building the response touches neither the generator nor the world. *)
Lemma image_response_pure r s : exists out, image_response r s = (out, s).
Proof.
  unfold image_response, image_content, bind, ret, raise.
  destruct (Py.decode _); eauto.
Qed.

(** [generate] leaves its probe first and no second one. *)
Lemma generate_trace a s :
  exists t,
    trace (snd (generate w cfg a s)) = (trace s ++ EvGenerate a :: t)%list /\
    forallb not_generate t = true.
Proof.
  rewrite generate_unfold.
  destruct (before_try_trace w cfg a s) as (t1 & E1 & F1).
  assert (forallb not_generate t1 = true) as F1'.
  { apply forallb_forall. intros e He.
    eapply forallb_forall in F1; [|done]. by destruct e. }
  destruct (before_try w cfg a s) as [[[[p [width height]] start]|e] s1];
    simpl in E1; [|by exists t1].
  assert (emits not_generate
            (try_except (run_and_save w cfg a p width height start)
               on_failure)) as Ht.
  { apply emits_try; [|intros; apply on_failure_emits].
    eapply emits_weaken; [|apply run_and_save_emits]. by intros []. }
  destruct (Ht s1) as (t2 & E2 & F2).
  exists (t1 ++ t2)%list. rewrite E2, E1, <- app_assoc. simpl.
  by rewrite forallb_app, F1', F2.
Qed.

(** C9. The [generate_image] tool has the properties [prompt], [style],
    [size] and [steps] and no other. A call whose arguments have the
    declared types reaches [generate] with these four, with guidance
    scale 7.0 and with enhancement on; and whatever the arguments are,
    every [generate] the call starts has guidance scale 7.0 and
    enhancement on. *)
Theorem generate_image_always_enhances arguments s :
  (fun t => prop_name <$> properties t) <$> find_tool "generate_image"
    = Some ["prompt"; "style"; "size"; "steps"] /\
  (forall p st sz n,
     arguments !! "prompt" = Some (VStr p) ->
     arguments !! "style" = VStr <$> st ->
     get arguments "size" (VStr "1024x1024") = VStr sz ->
     get arguments "steps" (VInt 30) = VInt n ->
     handle_call_tool w cfg "generate_image" arguments s
     = (result <- generate w cfg
                    {| arg_prompt := p; arg_style := st; arg_size := sz;
                       arg_steps := n; arg_guidance_scale := 7 # 1;
                       arg_enhance_prompt := true |} ;;
        image_response result) s) /\
  (exists t,
     trace (snd (handle_call_tool w cfg "generate_image" arguments s))
     = (trace s ++ t)%list /\
     forall a, EvGenerate a ∈ t ->
               arg_enhance_prompt a = true /\ arg_guidance_scale a = 7 # 1).
Proof.
  split; [done|]. split.
  - intros p st sz n Hp Hst Hsz Hn.
    change (handle_call_tool w cfg "generate_image" arguments s)
      with ((prompt <- subscript arguments "prompt" ;;
             prompt <- as_str "prompt" prompt ;;
             style <- as_opt_str "style" (arguments !! "style") ;;
             size <- as_str "size" (get arguments "size" (VStr "1024x1024")) ;;
             steps <- as_int "steps" (get arguments "steps" (VInt 30)) ;;
             result <- generate w cfg
                         {| arg_prompt := prompt; arg_style := style;
                            arg_size := size; arg_steps := steps;
                            arg_guidance_scale := 7 # 1;
                            arg_enhance_prompt := true |} ;;
             image_response result) s).
    unfold subscript. rewrite Hp, Hst, Hsz, Hn.
    by destruct st.
  - change (handle_call_tool w cfg "generate_image" arguments s)
      with ((prompt <- subscript arguments "prompt" ;;
             prompt <- as_str "prompt" prompt ;;
             style <- as_opt_str "style" (arguments !! "style") ;;
             size <- as_str "size" (get arguments "size" (VStr "1024x1024")) ;;
             steps <- as_int "steps" (get arguments "steps" (VInt 30)) ;;
             result <- generate w cfg
                         {| arg_prompt := prompt; arg_style := style;
                            arg_size := size; arg_steps := steps;
                            arg_guidance_scale := 7 # 1;
                            arg_enhance_prompt := true |} ;;
             image_response result) s).
    assert (forall (r : result (list content)),
              exists t, trace (snd (r, s)) = (trace s ++ t)%list /\
                forall a, EvGenerate a ∈ t ->
                  arg_enhance_prompt a = true /\ arg_guidance_scale a = 7 # 1)
      as Hstop.
    { intros r. exists []. split; [by rewrite app_nil_r|].
      by intros a Ha%elem_of_nil. }
    unfold subscript, bind at 1.
    destruct (arguments !! "prompt") as [vp|]; [|apply Hstop].
    unfold ret at 1. unfold bind at 1.
    destruct vp; try apply Hstop. simpl as_str at 1. unfold ret at 1.
    unfold bind at 1.
    destruct (as_opt_str_pure "style" (arguments !! "style") s)
      as [[st|e] ->]; [|apply Hstop].
    unfold bind at 1.
    destruct (get arguments "size" (VStr "1024x1024")); try apply Hstop.
    simpl as_str at 1. unfold ret at 1. unfold bind at 1.
    destruct (get arguments "steps" (VInt 30)); try apply Hstop.
    simpl as_int at 1. unfold ret at 1. unfold bind at 1.
    match goal with
    | |- context [generate w cfg ?a s] =>
        destruct (generate_trace a s) as (t & Et & Ft);
        destruct (generate w cfg a s) as [[gr|ge] gs]; simpl in Et;
        [destruct (image_response_pure gr gs) as [out ->]|];
        exists (EvGenerate a :: t); (split; [done|]);
        intros a' [[= ->]|Ha]%elem_of_cons; [done| |done|]
    end.
    all: apply list_elem_of_In in Ha.
    all: eapply forallb_forall in Ft; [|done]; discriminate Ft.
Qed.

End GenerateImage.

(** ** The properties at work on test doubles *)

Module Runs.
Import Doubles.





(** C2 fails on the code. With CUDA available and the second of three
    items failing, two items are processed and the cache is emptied once;
    without CUDA three items succeed and the cache is never emptied. *)
Lemma batch_clears_fewer_than_items :
  ~ cleared_once_per_item (world true ollama_ok run_fails_on_second)
      default_settings three plain init /\
  ~ cleared_once_per_item (world false ollama_ok run_ok)
      default_settings three plain init.
Proof. split; intros H; vm_compute in H; discriminate H. Qed.

Lemma generate_batch_cache_clears_witness :
  (exists rs s',
     generate_batch happy default_settings three plain init = (Ok rs, s') /\
     count_events is_empty_cache (trace s') = 3%nat) /\
  (exists e s',
     generate_batch (world true ollama_ok run_fails_on_second)
       default_settings three plain init = (Raise e, s') /\
     count_events is_empty_cache (trace s') = 1%nat) /\
  (exists s',
     generate_batch (world true ollama_ok run_oom)
       default_settings three plain init = (Raise OutOfMemoryError, s') /\
     count_events is_empty_cache (trace s') = 1%nat).
Proof.
  split; [|split].
  - eexists _, _. split; [vm_compute; reflexivity|].
    eapply (proj1 (generate_batch_cache_clears happy default_settings
                     three plain init)).
    vm_compute; reflexivity.
  - destruct (generate (world true ollama_ok run_fails_on_second)
                default_settings (with_kwargs "first" plain) init)
      as [[r1|e1] s1] eqn:H1; [|vm_compute in H1; discriminate H1].
    destruct (generate (world true ollama_ok run_fails_on_second)
                default_settings (with_kwargs "second" plain)
                (clear_between (world true ollama_ok run_fails_on_second) s1))
      as [[r2|e2] s2] eqn:H2;
      [vm_compute in H1; injection H1 as <- <-;
       vm_compute in H2; discriminate H2|].
    destruct (proj2 (proj2 (generate_batch_cache_clears
                              (world true ollama_ok run_fails_on_second)
                              default_settings three plain init))
                ["first"] "second" ["third"] [r1]
                (clear_between (world true ollama_ok run_fails_on_second) s1)
                e2 s2 eq_refl)
      as [Hb Hc]; [by repeat econstructor | exact H2 |].
    exists e2, s2. split; [exact Hb|]. rewrite Hc.
    vm_compute in H1. injection H1 as <- <-.
    vm_compute in H2. injection H2 as <- <-. reflexivity.
  - destruct (generate (world true ollama_ok run_oom)
                default_settings (with_kwargs "first" plain) init)
      as [[r1|e1] s1] eqn:H1; [vm_compute in H1; discriminate H1|].
    destruct (proj2 (proj2 (generate_batch_cache_clears
                              (world true ollama_ok run_oom)
                              default_settings three plain init))
                [] "first" ["second"; "third"] [] init e1 s1 eq_refl)
      as [Hb Hc]; [constructor | exact H1 |].
    assert (e1 = OutOfMemoryError) as ->
      by (vm_compute in H1; by injection H1 as <- _).
    exists s1. split; [exact Hb|]. rewrite Hc.
    vm_compute in H1. injection H1 as <-. reflexivity.
Defined.

Lemma dispatch_validation_witness :
  handle_call_tool happy default_settings "resize_image" ∅ init
  = (Raise (ValueError (UnknownTool "resize_image")), init) /\
  exists key,
    handle_call_tool happy default_settings "generate_image"
      {[ "style" := VStr "noir" ]} init
    = (Raise (KeyError key), init).
Proof.
  split.
  - apply (proj1 (dispatch_validation happy default_settings
                    "resize_image" ∅ init)).
    intros H. apply registered_find_tool in H as [t Ht]. discriminate Ht.
  - destruct (find_tool "generate_image") as [t|] eqn:Ht; [|discriminate Ht].
    destruct (proj2 (dispatch_validation happy default_settings
                       "generate_image" {[ "style" := VStr "noir" ]} init)
                t "prompt" Ht) as (key & _ & _ & H).
    + injection Ht as <-. simpl. apply list_elem_of_here.
    + reflexivity.
    + by exists key.
Defined.

Lemma enhance_prompt_never_raises_witness :
  fst (enhance_prompt (world true ollama_down run_ok) default_settings
         "a coffee shop" (Some "cozy and warm") init)
  = Ok "a coffee shop, high quality, detailed, professional photography".
Proof.
  destruct (enhance_prompt_never_raises (world true ollama_down run_ok)
              default_settings "a coffee shop" (Some "cozy and warm") init)
    as (_ & H & _).
  rewrite (H (ExternalError "connection refused")); [reflexivity|].
  left. reflexivity.
Defined.

Lemma load_model_idempotent_witness :
  load_model happy default_settings loaded = (Ok tt, loaded) /\
  count_events is_load
    (trace (snd ((load_model happy default_settings ;;;
                  load_model happy default_settings) init)))
  = 1%nat.
Proof.
  split.
  - apply (proj1 (load_model_idempotent happy default_settings loaded)).
    unfold Loaded. discriminate.
  - apply (proj2 (proj2 (load_model_idempotent happy default_settings init))).
    reflexivity.
Defined.

Lemma generate_batch_in_order_aborts_witness :
  exists s',
    generate_batch (world true ollama_ok run_fails_on_second)
      default_settings three plain init
    = (Raise (ExternalError "inference failed"), s') /\
    count_events is_generate (trace s') = 2%nat.
Proof.
  eexists. split.
  - eapply (proj2 (proj2 (generate_batch_in_order_aborts
                            (world true ollama_ok run_fails_on_second)
                            default_settings three plain init))
              ["first"] "second" ["third"]).
    + reflexivity.
    + econstructor; [vm_compute; reflexivity | constructor].
    + vm_compute; reflexivity.
  - vm_compute; reflexivity.
Defined.

Lemma generate_out_of_memory_witness :
  exists s',
    generate (world true ollama_ok run_oom) default_settings robot init
    = (Raise OutOfMemoryError, s') /\
    count_events is_run (trace s') = 1%nat /\
    count_events is_empty_cache (trace s') = 1%nat.
Proof.
  eexists.
  eapply (generate_out_of_memory (world true ollama_ok run_oom)
            default_settings robot init).
  - vm_compute; reflexivity.
  - reflexivity.
Defined.

Lemma generate_result_fields_witness :
  exists r s',
    generate ticking default_settings robot init = (Ok r, s') /\
    size r = "512x512" /\ steps r = 20 /\
    image_path r
    = path_join (output_path default_settings)
        "generated_1700000007_512x512.png" /\
    image_data r = encode_png (Image []).
Proof.
  destruct (generate ticking default_settings robot init) as [[r|e] s'] eqn:Hg;
    [|vm_compute in Hg; discriminate Hg].
  exists r, s'. split; [reflexivity|].
  destruct (generate_result_fields ticking default_settings robot init
              r s' 512 512 eq_refl eq_refl eq_refl Hg)
    as (t & img & _ & Htr & Hcall & Hsize & Hsteps & _ & Hpath & _ & Hdata & _).
  split; [exact Hsize|]. split; [exact Hsteps|]. split.
  - rewrite Hpath. apply (f_equal (@length event)) in Htr.
    rewrite length_app in Htr.
    assert (length (trace_at_stamp init robot t (prompt r) 512 512) = 7%nat)
      as Hlen.
    { set (n := length (trace_at_stamp init robot t (prompt r) 512 512))
        in *.
      clearbody n. vm_compute in Hg. injection Hg as _ <-. simpl in Htr. lia. }
    cbv beta iota delta [time_time ticking]. rewrite Hlen. reflexivity.
  - rewrite Hdata. simpl in Hcall. by injection Hcall as <-.
Defined.

Lemma generate_image_always_enhances_witness :
  handle_call_tool happy default_settings "generate_image"
    {[ "prompt" := VStr "a lighthouse" ]} init
  = (result <- generate happy default_settings
                 {| arg_prompt := "a lighthouse"; arg_style := None;
                    arg_size := "1024x1024"; arg_steps := 30;
                    arg_guidance_scale := 7 # 1;
                    arg_enhance_prompt := true |} ;;
     image_response result) init /\
  fst (handle_call_tool happy default_settings "generate_image"
         {[ "prompt" := VStr "a lighthouse" ]} init)
  = Raise invalid_image_data /\
  count_events is_ollama
    (trace (snd (handle_call_tool happy default_settings "generate_image"
                   {[ "prompt" := VStr "a lighthouse" ]} init)))
  = 1%nat.
Proof.
  pose proof (proj1 (proj2 (generate_image_always_enhances happy
                              default_settings
                              {[ "prompt" := VStr "a lighthouse" ]} init))
                "a lighthouse" None "1024x1024" 30) as H.
  specialize (H ltac:(reflexivity) ltac:(reflexivity) ltac:(reflexivity)
                ltac:(reflexivity)).
  split; [exact H|]. rewrite H. split; vm_compute; reflexivity.
Defined.

Lemma loaded_until_unload_witness :
  Loaded (snd (generate (world true ollama_ok run_oom) default_settings
                 robot loaded)) /\
  Loaded (snd (generate (world true ollama_ok run_oom) default_settings
                 robot init)).
Proof.
  split.
  - apply (proj1 (loaded_until_unload (world true ollama_ok run_oom)
                    default_settings robot loaded)).
    unfold Loaded. discriminate.
  - apply (proj1 (proj2 (loaded_until_unload (world true ollama_ok run_oom)
                           default_settings robot init))).
    reflexivity.
Defined.

End Runs.

(** * Further properties *)

(** ** Size strings, in general *)

Module SizeFacts.
Import Py PyFacts.

Lemma split_nonempty c s : split c s <> [].
Proof.
  destruct s as [|c' r]; simpl; [done|].
  destruct (Ascii.eqb c' c); [done|]. by destruct (split c r).
Qed.

Lemma split_length c s : length (split c s) = S (count_char c s).
Proof.
  induction s as [|c' r IH]; simpl; [done|].
  destruct (Ascii.eqb c' c); simpl; [by rewrite IH|].
  pose proof (split_nonempty c r).
  destruct (split c r) as [|h t]; [done|]. simpl in *. lia.
Qed.

Lemma split_no_sep c s : count_char c s = 0%nat -> split c s = [s].
Proof.
  induction s as [|c' r IH]; simpl; [done|].
  destruct (Ascii.eqb c' c); simpl; [done|].
  intros H. by rewrite (IH H).
Qed.

Lemma split_app c a b :
  count_char c a = 0%nat -> split c (a ++ String c b) = a :: split c b.
Proof.
  induction a as [|c' r IH].
  - intros _. rewrite append_nil_l. simpl. by rewrite Ascii.eqb_refl.
  - rewrite append_cons. simpl.
    destruct (Ascii.eqb c' c); simpl; [done|].
    intros H. by rewrite (IH H).
Qed.

Lemma split_one_inv c s b :
  split c s = [b] -> s = b /\ count_char c s = 0%nat.
Proof.
  revert b. induction s as [|c' r IH]; intros b; simpl.
  - by intros [= <-].
  - destruct (Ascii.eqb c' c).
    + intros [= _ H]. by apply split_nonempty in H.
    + destruct (split c r) as [|h t] eqn:E; [by apply split_nonempty in E|].
      intros [= <- ->]. destruct (IH h eq_refl) as [-> ->]. done.
Qed.

Lemma split_two_inv c s a b :
  split c s = [a; b] ->
  s = a ++ String c b /\ count_char c a = 0%nat /\ count_char c b = 0%nat.
Proof.
  revert a. induction s as [|c' r IH]; intros a; simpl; [done|].
  destruct (Ascii.eqb_spec c' c) as [->|Hne].
  - intros [= <- H]. apply split_one_inv in H as [-> H]. done.
  - destruct (split c r) as [|h t] eqn:E; [done|].
    intros [= <- ->]. destruct (IH h eq_refl) as (-> & Ha & Hb).
    rewrite append_cons. simpl.
    destruct (Ascii.eqb_spec c' c); [done|]. done.
Qed.

Lemma string_forall_app P a b :
  string_forall P (a ++ b) = string_forall P a && string_forall P b.
Proof.
  induction a as [|x a IH]; [done|].
  rewrite append_cons. simpl. by rewrite IH, andb_assoc.
Qed.

Lemma string_forall_rev P s : string_forall P (rev s) = string_forall P s.
Proof.
  induction s as [|c r IH]; [done|].
  rewrite rev_cons, string_forall_app, IH. simpl.
  rewrite andb_true_r. apply andb_comm.
Qed.

Lemma string_forall_impl (P Q : ascii -> bool) s :
  (forall c, P c = true -> Q c = true) ->
  string_forall P s = true -> string_forall Q s = true.
Proof.
  intros HPQ. induction s as [|c r IH]; simpl; [done|].
  intros [Hc Hr]%andb_prop. by rewrite (HPQ c Hc), (IH Hr).
Qed.

Lemma count_plain s :
  string_forall plain_char s = true -> count_char "x" s = 0%nat.
Proof.
  induction s as [|c r IH]; simpl; [done|].
  intros [[_ Hc]%andb_prop Hr]%andb_prop.
  rewrite (IH Hr). by destruct (Ascii.eqb c "x").
Qed.

Lemma digit_plain c : is_Some (digit_val c) -> plain_char c = true.
Proof.
  intros H. unfold plain_char.
  by rewrite (digit_not_space c H), (digit_not_x c H).
Qed.

Lemma digits_plain s : all_digits s = true -> string_forall plain_char s = true.
Proof.
  induction s as [|c r IH]; simpl; [done|].
  intros [Hc Hr]%andb_prop. apply bool_decide_eq_true in Hc.
  by rewrite (digit_plain c Hc), (IH Hr).
Qed.

Lemma str_int_neg_eq p :
  str_int (Z.neg p) = String "-" (NilEmpty.string_of_uint (Pos.to_uint p)).
Proof.
  unfold str_int. simpl.
  pose proof (Unsigned.to_uint_nonnil p) as Hn.
  by destruct (Pos.to_uint p).
Qed.

Lemma str_int_plain n : string_forall plain_char (str_int n) = true.
Proof.
  destruct n as [|p|p].
  - reflexivity.
  - apply digits_plain, str_int_pos_digits.
  - rewrite str_int_neg_eq. simpl. apply digits_plain, uint_string_digits.
Qed.

Lemma plain_not_blank c : plain_char c = true -> is_blank c = false.
Proof.
  unfold plain_char. intros [Hc _]%andb_prop.
  destruct (is_blank c) eqn:E; [|done].
  apply blank_is_space in E. by rewrite E in Hc.
Qed.

Lemma skip_blanks_plain s :
  string_forall plain_char s = true -> skip_blanks s = s.
Proof.
  destruct s as [|c r]; simpl; [done|].
  intros [Hc _]%andb_prop. by rewrite plain_not_blank.
Qed.

(** [int] finds nothing to drop around a string without whitespace. *)
Lemma trim_blanks_plain s :
  string_forall plain_char s = true -> trim_blanks s = s.
Proof.
  intros H. unfold trim_blanks.
  rewrite (skip_blanks_plain s H), skip_blanks_plain, rev_involutive; [done|].
  by rewrite string_forall_rev.
Qed.

(** [int(str(n)) == n] for every integer within the digit limit. *)
Lemma int_str_int_all n : fits (str_int n) -> int (str_int n) = Some n.
Proof.
  destruct n as [|p|p].
  - reflexivity.
  - apply int_str_int.
  - intros Hfit. unfold int.
    rewrite (trim_blanks_plain _ (str_int_plain (Z.neg p))).
    rewrite str_int_neg_eq in *.
    rewrite literal_fits by exact Hfit.
    pose proof (Unsigned.to_uint_nonnil p) as Hn.
    rewrite parse_digits_first;
      [|by destruct (Pos.to_uint p) | apply uint_string_digits].
    by rewrite parse_digits_uint, Unsigned.of_to.
Qed.

End SizeFacts.

Section SizeExtras.

Variable cfg : Settings.

(** X1. Writing two integers around an [x] and parsing the result gives
    the integers back, whatever their sign, as long as neither has more
    digits than Python converts: [get_image_size_tuple] checks the format
    of a size string, not the sign of its numbers. *)
Theorem size_round_trip width height :
  Py.fits (Py.str_int width) -> Py.fits (Py.str_int height) ->
  get_image_size_tuple cfg
    (Some (Py.str_int width ++ "x" ++ Py.str_int height))
  = Ok (width, height).
Proof.
  intros Hfw Hfh. unfold get_image_size_tuple.
  pose proof (SizeFacts.str_int_plain width) as Hw.
  pose proof (SizeFacts.str_int_plain height) as Hh.
  assert (Py.truthy (Py.str_int width ++ "x" ++ Py.str_int height) = true)
    as ->.
  { destruct (Py.str_int width); [done|]. by rewrite PyFacts.append_cons. }
  change ("x" ++ Py.str_int height) with (String "x" (Py.str_int height)).
  rewrite SizeFacts.split_app by (by apply SizeFacts.count_plain).
  rewrite SizeFacts.split_no_sep by (by apply SizeFacts.count_plain).
  unfold unpack_two_ints. by rewrite !SizeFacts.int_str_int_all.
Qed.

(** X2. [get_image_size_tuple] returns [(width, height)] exactly when the
    string it works on ([size_str], or the default size when that is
    [None] or empty) consists of two pieces around a single [x] that
    [int] reads as [width] and [height]. *)
Theorem size_accepted_iff size_str width height :
  get_image_size_tuple cfg size_str = Ok (width, height) <->
  exists a b,
    effective_size cfg size_str = a ++ "x" ++ b /\
    count_char "x" a = 0%nat /\ count_char "x" b = 0%nat /\
    Py.int a = Some width /\ Py.int b = Some height.
Proof.
  unfold get_image_size_tuple. fold (effective_size cfg size_str).
  split.
  - unfold unpack_two_ints.
    destruct (Py.split "x" (effective_size cfg size_str))
      as [|a [|b [|c rest]]] eqn:E; try done.
    + by destruct (Py.int a).
    + destruct (Py.int a) as [wd|] eqn:Ea; [|done].
      destruct (Py.int b) as [ht|] eqn:Eb; [|done].
      intros [= <- <-].
      apply SizeFacts.split_two_inv in E as (E & Ha & Hb).
      by exists a, b.
    + destruct (Py.int a); [|done]. destruct (Py.int b); [|done].
      by destruct (Py.int c).
  - intros (a & b & -> & Ha & Hb & Hia & Hib).
    change ("x" ++ b) with (String "x" b).
    rewrite SizeFacts.split_app, SizeFacts.split_no_sep by done.
    unfold unpack_two_ints. by rewrite Hia, Hib.
Qed.

(** X3. A size string in which [x] does not occur exactly once is
    rejected with a [ValueError]. *)
Theorem size_needs_one_separator size_str :
  count_char "x" (effective_size cfg size_str) <> 1%nat ->
  exists ve, get_image_size_tuple cfg size_str = Raise (ValueError ve).
Proof.
  intros Hc. unfold get_image_size_tuple. fold (effective_size cfg size_str).
  pose proof (SizeFacts.split_length "x" (effective_size cfg size_str)) as Hl.
  unfold unpack_two_ints.
  destruct (Py.split "x" (effective_size cfg size_str))
    as [|a [|b [|c rest]]]; simpl in Hl; try lia.
  - destruct (Py.int a); eauto.
  - destruct (Py.int a); eauto. destruct (Py.int b); eauto.
    destruct (Py.int c); eauto.
Qed.

End SizeExtras.

(** ** The model handle, further *)

Section HandleExtras.

Variable w : World.
Variable cfg : Settings.

(** X4. When fetching the weights and moving them to the device both go
    through, [load_model] leaves the pipeline in half precision, with CPU
    offload, VAE slicing and attention slicing switched on, on the device
    [get_device] chooses: CUDA if available, else MPS if available, else
    the CPU. *)
Theorem load_model_configures s :
  Unloaded s ->
  from_pretrained w (trace s ++ [EvFromPretrained (sd3_model_path cfg)])
    (sd3_model_path cfg) = None ->
  pipeline_to w
    ((trace s ++ [EvFromPretrained (sd3_model_path cfg)])
     ++ [EvTo (get_device w)]) (get_device w) = None ->
  load_model w cfg s
  = (Ok tt,
     {| pipeline := Some (configured_pipeline w cfg);
        trace := (trace s ++ [EvFromPretrained (sd3_model_path cfg)])
                 ++ [EvTo (get_device w)] |}) /\
  get_device w = (if cuda_is_available w then Cuda
                  else if mps_is_available w then Mps else Cpu).
Proof.
  intros Hs Hf Ht. split; [|done].
  unfold Unloaded in Hs.
  unfold load_model, update_pipeline, call_unit, bind, get_pipeline,
    set_pipeline, emit, get_trace, ret, raise.
  rewrite Hs. simpl. rewrite Hf. simpl. by rewrite Ht.
Qed.

(** X5. The two ways [load_model] fails. If [from_pretrained] raises, the
    exception goes to the caller and the generator stays unloaded, so the
    next call tries again. If moving the pipeline to the device raises,
    the exception goes to the caller too, but [self.pipeline] has been
    assigned already: the generator counts as loaded with a pipeline that
    sits on no device, and every later [load_model] returns at once
    without moving it. *)
Theorem load_model_failures s :
  Unloaded s ->
  (forall e,
     from_pretrained w (trace s ++ [EvFromPretrained (sd3_model_path cfg)])
       (sd3_model_path cfg) = Some e ->
     load_model w cfg s
     = (Raise e,
        {| pipeline := None;
           trace := trace s ++ [EvFromPretrained (sd3_model_path cfg)] |})) /\
  (forall e,
     from_pretrained w (trace s ++ [EvFromPretrained (sd3_model_path cfg)])
       (sd3_model_path cfg) = None ->
     pipeline_to w
       ((trace s ++ [EvFromPretrained (sd3_model_path cfg)])
        ++ [EvTo (get_device w)]) (get_device w) = Some e ->
     exists p s1,
       load_model w cfg s = (Raise e, s1) /\
       pipeline s1 = Some p /\ placed_on p = None /\
       load_model w cfg s1 = (Ok tt, s1)).
Proof.
  intros Hs. unfold Unloaded in Hs. split.
  - intros e Hf.
    unfold load_model, update_pipeline, call_unit, bind, get_pipeline,
      set_pipeline, emit, get_trace, ret, raise.
    rewrite Hs. simpl. rewrite Hf. simpl. by rewrite Hs.
  - intros e Hf Ht. eexists _, _. split; [|split; [|split]].
    + unfold load_model, update_pipeline, call_unit, bind, get_pipeline,
        set_pipeline, emit, get_trace, ret, raise.
      rewrite Hs. simpl. rewrite Hf. simpl. rewrite Ht. reflexivity.
    + reflexivity.
    + reflexivity.
    + by apply load_model_loaded.
Qed.

Lemma unload_model_none s : pipeline s = None -> unload_model w s = (Ok tt, s).
Proof.
  intros H. unfold unload_model, bind, get_pipeline. simpl. by rewrite H.
Qed.

Lemma unload_model_loaded s :
  Loaded s ->
  unload_model w s
  = (Ok tt, {| pipeline := None;
               trace := trace s ++ (if cuda_is_available w
                                    then [EvEmptyCache] else []) |}).
Proof.
  unfold Loaded, unload_model, bind, get_pipeline, set_pipeline,
    empty_cache, emit, ret. simpl.
  destruct (pipeline s); [|done]. intros _.
  destruct (cuda_is_available w); simpl; [done|].
  by rewrite app_nil_r.
Qed.

(** X6. [unload_model] never raises. On an unloaded generator it changes
    nothing; on a loaded one it drops the pipeline and empties the cache,
    the latter once and only when CUDA is available. Calling it again
    changes nothing more. *)
Theorem unload_model_effect s :
  (Unloaded s -> unload_model w s = (Ok tt, s)) /\
  (Loaded s ->
   unload_model w s
   = (Ok tt, {| pipeline := None;
                trace := trace s ++ (if cuda_is_available w
                                     then [EvEmptyCache] else []) |})) /\
  unload_model w (snd (unload_model w s)) = (Ok tt, snd (unload_model w s)).
Proof.
  split; [apply unload_model_none|]. split; [apply unload_model_loaded|].
  apply unload_model_none, unload_model_unloaded.
Qed.

(** X7. Unloading discards the weights for good: after [unload_model], the
    next [load_model] fetches them again. *)
Theorem reload_after_unload s :
  Loaded s ->
  count_events is_load
    (trace (snd ((unload_model w ;;; load_model w cfg) s)))
  = S (count_events is_load (trace s)).
Proof.
  intros Hs. unfold bind.
  rewrite (unload_model_loaded s Hs). rewrite load_model_unloaded by done.
  simpl. destruct (cuda_is_available w); count.
Qed.

End HandleExtras.

(** ** One generation, further *)

Section GenerateExtras.

Variable w : World.
Variable cfg : Settings.

Ltac unfold_generate :=
  unfold generate, before_try, run_and_save, on_failure, enhance_prompt,
    ollama_client_generate, load_model, update_pipeline, time, empty_cache,
    call, call_unit, try_except, lift, bind, emit, get_trace, get_pipeline,
    set_pipeline, ret, raise.

(** What [before_try] hands to the [try]. *)
Lemma before_try_ok a s p width height start s1 :
  before_try w cfg a s = (Ok (p, (width, height), start), s1) ->
  get_image_size_tuple cfg (Some (arg_size a)) = Ok (width, height) /\
  (arg_enhance_prompt a = false -> p = plain_prompt a) /\
  (exists s0, load_model w cfg (probed a s) = (Ok tt, s0)) /\
  (arg_enhance_prompt a = true ->
   exists s0 s2,
     enhance_prompt w cfg (arg_prompt a) (arg_style a) s0 = (Ok p, s2)).
Proof.
  unfold before_try. unfold bind at 1. simpl. fold (probed a s).
  unfold bind at 1.
  destruct (load_model w cfg (probed a s)) as [[[]|e] s0]; [|done].
  unfold bind at 1.
  destruct (arg_enhance_prompt a).
  - destruct (enhance_prompt w cfg (arg_prompt a) (arg_style a) s0)
      as [[text|e] s2] eqn:Ee; [|done].
    unfold bind at 1, lift.
    destruct (get_image_size_tuple cfg (Some (arg_size a))) as [[wd ht]|e];
      [|done].
    unfold bind, time, emit, get_trace, ret. simpl. intros [= <- <- <- _ _].
    repeat split; eauto. done.
  - unfold plain_prompt.
    assert (exists q,
      (match arg_style a with
       | Some st => if Py.truthy st
                    then ret (arg_prompt a ++ ", " ++ st ++ " style")
                    else ret (arg_prompt a)
       | None => ret (arg_prompt a)
       end) s0 = (Ok q, s0) /\
      q = match arg_style a with
          | Some st => if Py.truthy st
                       then arg_prompt a ++ ", " ++ st ++ " style"
                       else arg_prompt a
          | None => arg_prompt a
          end) as (q & -> & Hq).
    { destruct (arg_style a) as [st|]; [destruct (Py.truthy st)|];
        eexists; split; reflexivity. }
    unfold bind at 1, lift.
    destruct (get_image_size_tuple cfg (Some (arg_size a))) as [[wd ht]|e];
      [|done].
    unfold bind, time, emit, get_trace, ret. simpl. intros [= <- <- <- _ _].
    repeat split; eauto. done.
Qed.

Lemma on_failure_emits_any {A} Q e :
  Q EvEmptyCache = true -> emits Q (@on_failure A e).
Proof. intros HQ. unfold on_failure, empty_cache. destruct e; frame. Qed.

(** X8. With [enhance_prompt=False] the text service is never contacted;
    the prompt that goes to the pipeline and into the result is the
    caller's prompt, followed by [", <style> style"] when a non-empty style
    is given. *)
Theorem generate_without_enhancement a s :
  arg_enhance_prompt a = false ->
  count_events is_ollama (trace (snd (generate w cfg a s)))
  = count_events is_ollama (trace s) /\
  (forall r s', generate w cfg a s = (Ok r, s') -> prompt r = plain_prompt a).
Proof.
  intros Hen. split.
  - apply (emits_count (fun e => negb (is_ollama e))); [|by intros []].
    unfold generate, before_try. rewrite Hen.
    repeat first
      [ (eapply emits_weaken; [|apply load_model_emits]); by intros []
      | (eapply emits_weaken; [|apply time_emits]); by intros []
      | apply emits_emit; reflexivity
      | apply emits_ret
      | apply emits_lift
      | apply emits_bind; [|intros ?]
      | match goal with
        | |- emits _ (match ?x with _ => _ end) => destruct x
        | |- emits _ (if ?x then _ else _) => destruct x
        | |- emits _ (let '(_, _) := ?x in _) => destruct x
        end ].
    apply emits_try.
    + (eapply emits_weaken; [|apply run_and_save_emits]); by intros [].
    + intros e. by apply on_failure_emits_any.
  - intros r s' (p & width & height & start & s1 & Hb & Hr)%generate_ok.
    apply before_try_ok in Hb as (_ & Hp & _).
    apply run_and_save_ok in Hr as (_ & _ & _ & _ & _ & _ & -> & _).
    by apply Hp.
Qed.

(** X9. With enhancement on and the text service failing, the prompt that
    goes to the pipeline and into the result is the caller's prompt
    followed by the fixed qualifiers; the style hint, which only went into
    the request to the service, is not part of it. *)
Theorem generate_with_service_down a s r s' :
  arg_enhance_prompt a = true ->
  (forall t model request text,
     ollama_generate w t model request <> OllamaResponse text) ->
  generate w cfg a s = (Ok r, s') ->
  prompt r = arg_prompt a ++ fallback_qualifiers.
Proof.
  intros Hen Hdown (p & width & height & start & s1 & Hb & Hr)%generate_ok.
  apply before_try_ok in Hb as (_ & _ & _ & He).
  destruct (He Hen) as (s0 & s2 & Hp).
  apply run_and_save_ok in Hr as (_ & _ & _ & _ & _ & _ & -> & _).
  revert Hp.
  unfold enhance_prompt, try_except, ollama_client_generate, bind, emit,
    get_trace, ret, raise. simpl.
  destruct (ollama_generate w _ _ _) eqn:E; simpl; try congruence.
  by apply Hdown in E.
Qed.

Lemma count_none P Q t :
  forallb Q t = true -> (forall e, Q e = true -> P e = false) ->
  count_events P t = 0%nat.
Proof.
  intros F HQ. induction t as [|e t IH]; [done|]. simpl in F.
  apply andb_prop in F as [Fe Ft]. count. by rewrite (HQ e Fe), (IH Ft).
Qed.

(** The events of a [try] body that went through. *)
Lemma run_and_save_ok_trace a p width height start s1 r s' :
  run_and_save w cfg a p width height start s1 = (Ok r, s') ->
  trace s' = (trace s1 ++ [EvPipeline (args_of a p width height); EvTime;
                           EvTime; EvSave (image_path r)])%list.
Proof.
  unfold run_and_save, call, call_unit, time, bind, emit, get_trace, ret,
    raise. simpl.
  destruct (pipeline_call w _ _) as [img|e]; simpl; [|done].
  destruct (image_save w _ _) as [e|]; simpl; [done|].
  intros [= <- <-]. simpl. by rewrite <- !app_assoc.
Qed.

(** X10. A [generate] that returns has called the pipeline exactly once,
    with the prompt it reports, the width and height parsed from the size
    string, the requested steps and guidance scale and one image per
    prompt; after that, and after two clock readings, it has saved exactly
    one file, under the path it reports; and the generator is loaded. *)
Theorem generate_success_effects a s r s' :
  generate w cfg a s = (Ok r, s') ->
  exists s1 width height,
    trace s' = (trace s1 ++ [EvPipeline (args_of a (prompt r) width height);
                             EvTime; EvTime; EvSave (image_path r)])%list /\
    get_image_size_tuple cfg (Some (arg_size a)) = Ok (width, height) /\
    count_events is_run (trace s1) = count_events is_run (trace s) /\
    count_events is_save (trace s1) = count_events is_save (trace s) /\
    Loaded s'.
Proof.
  intros Hg.
  pose proof Hg as (p & width & height & start & s1 & Hb & Hr)%generate_ok.
  pose proof (before_try_no_run w cfg a s) as Hrun.
  destruct (before_try_trace w cfg a s) as (t & Et & Ft).
  rewrite Hb in Hrun, Et. simpl in Hrun, Et.
  pose proof Hb as (Hsz & _ & (s0 & Hl) & _)%before_try_ok.
  pose proof (run_and_save_ok_trace _ _ _ _ _ _ _ _ Hr) as Htr.
  apply run_and_save_ok in Hr as (_ & _ & _ & _ & _ & _ & <- & _).
  exists s1, width, height.
  split; [done|]. split; [done|]. split; [done|]. split.
  - rewrite Et. count.
    rewrite (count_none is_save before_try_events t Ft); [lia|by intros []].
  - pose proof (generate_pipeline w cfg a s) as Hp.
    rewrite Hg in Hp. fold (probed a s) in Hp. rewrite Hl in Hp.
    unfold Loaded. simpl in Hp. rewrite Hp.
    by eapply load_model_ok_loaded.
Qed.

Lemma load_model_fetch_error s e :
  Unloaded s ->
  from_pretrained w (trace s ++ [EvFromPretrained (sd3_model_path cfg)])
    (sd3_model_path cfg) = Some e ->
  load_model w cfg s
  = (Raise e,
     {| pipeline := None;
        trace := trace s ++ [EvFromPretrained (sd3_model_path cfg)] |}).
Proof.
  unfold Unloaded. intros Hs Hf.
  unfold load_model, update_pipeline, call_unit, bind, get_pipeline,
    set_pipeline, emit, get_trace, ret, raise.
  rewrite Hs. simpl. rewrite Hf. simpl. by rewrite Hs.
Qed.

(** X11. When the weights cannot be fetched, [generate] raises the
    exception of [from_pretrained] at once: the text service, the clock
    and the pipeline are not reached, and the generator stays unloaded. *)
Theorem generate_load_failure a s e :
  Unloaded s ->
  from_pretrained w
    ((trace s ++ [EvGenerate a]) ++ [EvFromPretrained (sd3_model_path cfg)])
    (sd3_model_path cfg) = Some e ->
  generate w cfg a s
  = (Raise e,
     {| pipeline := None;
        trace := (trace s ++ [EvGenerate a])
                 ++ [EvFromPretrained (sd3_model_path cfg)] |}).
Proof.
  intros Hs Hf. rewrite generate_unfold.
  unfold before_try. unfold bind at 1. simpl. fold (probed a s).
  unfold bind at 1.
  by rewrite (load_model_fetch_error (probed a s) e Hs Hf).
Qed.

(** X12. Whatever happens, one call of [generate] fetches the weights at
    most once, asks the text service at most once, calls the pipeline at
    most once, saves at most one file and empties the cache at most once:
    nothing in it is tried a second time. *)
Theorem generate_at_most_once a s :
  let t := trace s in
  let t' := trace (snd (generate w cfg a s)) in
  (count_events is_load t' <= S (count_events is_load t))%nat /\
  (count_events is_ollama t' <= S (count_events is_ollama t))%nat /\
  (count_events is_run t' <= S (count_events is_run t))%nat /\
  (count_events is_save t' <= S (count_events is_save t))%nat /\
  (count_events is_empty_cache t' <= S (count_events is_empty_cache t))%nat.
Proof.
  unfold_generate. simpl.
  destruct (get_image_size_tuple cfg (Some (arg_size a))) as [[wd ht]|ve].
  all: repeat (case_match; simplify_eq/=).
  all: repeat split; count.
Qed.

End GenerateExtras.

(** ** Batches, further *)

Section BatchExtras.

Variable w : World.
Variable cfg : Settings.

Lemma generate_ok_plain_prompt a s r s' :
  arg_enhance_prompt a = false ->
  generate w cfg a s = (Ok r, s') -> prompt r = plain_prompt a.
Proof.
  intros Hen (p & width & height & start & s1 & Hb & Hr)%generate_ok.
  apply before_try_ok in Hb as (_ & Hp & _).
  apply run_and_save_ok in Hr as (_ & _ & _ & _ & _ & _ & -> & _).
  by apply Hp.
Qed.

Lemma generate_ok_loaded a s r s' :
  generate w cfg a s = (Ok r, s') -> Loaded s'.
Proof.
  intros Hg.
  pose proof Hg as (p & width & height & start & s1 & Hb & Hr)%generate_ok.
  apply before_try_ok in Hb as (_ & _ & (s0 & Hl) & _).
  pose proof (generate_pipeline w cfg a s) as Hp.
  rewrite Hg in Hp. fold (probed a s) in Hp. rewrite Hl in Hp.
  unfold Loaded. simpl in Hp. rewrite Hp.
  by eapply load_model_ok_loaded.
Qed.

(** The only weights [generate] fetches are those its [load_model]
    fetches. *)
Lemma generate_load_count a s :
  count_events is_load (trace (snd (generate w cfg a s)))
  = count_events is_load (trace (snd (load_model w cfg (probed a s)))).
Proof.
  unfold probed. rewrite <- (before_try_load_count w cfg a s).
  rewrite generate_unfold.
  destruct (before_try w cfg a s) as [[[[p [width height]] start]|e] s1];
    [|done].
  apply (emits_count (fun e => negb (is_load e))); [|by intros []].
  apply emits_try.
  - (eapply emits_weaken; [|apply run_and_save_emits]); by intros [].
  - intros e. by apply on_failure_emits_any.
Qed.

Lemma generate_load_count_loaded a s :
  Loaded s ->
  count_events is_load (trace (snd (generate w cfg a s)))
  = count_events is_load (trace s).
Proof.
  intros Hs. rewrite generate_load_count, load_model_loaded by done.
  simpl. count.
Qed.

Lemma generate_load_count_unloaded a s :
  Unloaded s ->
  count_events is_load (trace (snd (generate w cfg a s)))
  = S (count_events is_load (trace s)).
Proof.
  intros Hs. rewrite generate_load_count, load_model_unloaded by done.
  simpl. count.
Qed.

Lemma clear_between_loaded s : Loaded s -> Loaded (clear_between w s).
Proof. unfold clear_between. by destruct (cuda_is_available w). Qed.

Lemma clear_between_load_count s :
  count_events is_load (trace (clear_between w s))
  = count_events is_load (trace s).
Proof. unfold clear_between. destruct (cuda_is_available w); simpl; count. Qed.

Lemma generate_batch_from_loaded prompts : forall results k s,
  Loaded s ->
  count_events is_load
    (trace (snd (generate_batch_from w cfg results prompts k s)))
  = count_events is_load (trace s).
Proof.
  induction prompts as [|p rest IH]; intros results k s Hs; [done|].
  rewrite generate_batch_from_cons.
  pose proof (generate_load_count_loaded (with_kwargs p k) s Hs) as Hc.
  pose proof (generate_keeps_loaded w cfg (with_kwargs p k) s Hs) as Hl.
  destruct (generate w cfg (with_kwargs p k) s) as [[r|e] s1];
    simpl in *; [|done].
  rewrite IH by (by apply clear_between_loaded).
  by rewrite clear_between_load_count.
Qed.

(** X13. With [enhance_prompt=False] among the keyword arguments, the
    results of a batch that returns carry, in input order, the prompts of
    the batch, each followed by [", <style> style"] if a non-empty style
    was passed: there are as many results as prompts and the i-th result
    belongs to the i-th prompt. *)
Theorem generate_batch_results_in_order prompts k s rs s' :
  kw_enhance_prompt k = Some false ->
  generate_batch w cfg prompts k s = (Ok rs, s') ->
  prompt <$> rs = (fun p => plain_prompt (with_kwargs p k)) <$> prompts.
Proof.
  intros Hk (rs' & -> & Hrun)%generate_batch_from_ok. simpl.
  induction Hrun as [s|s p r s1 rest rs s2 Hg Hrun IH]; [done|].
  simpl. f_equal; [|done].
  eapply generate_ok_plain_prompt; [|done].
  unfold with_kwargs. simpl. by rewrite Hk.
Qed.

Lemma generate_batch_from_acc prompts results k s :
  generate_batch_from w cfg results prompts k s =
  match generate_batch_from w cfg [] prompts k s with
  | (Ok rs, s') => (Ok (results ++ rs)%list, s')
  | (Raise e, s') => (Raise e, s')
  end.
Proof.
  destruct (generate_batch_from w cfg [] prompts k s) as [[rs|e] s'] eqn:E.
  - apply generate_batch_from_ok in E as (rs' & -> & Hrun).
    by apply batch_run_ok.
  - apply generate_batch_from_raise in E
      as (done_items & p & rest & rs & s1 & -> & Hrun & Hg).
    by eapply batch_run_then_raise.
Qed.

(** X14. A batch over [first ++ second] is the batch over [first] followed,
    if that returned, by the batch over [second] in the state it left, the
    results put one after the other; if the batch over [first] raises, so
    does the whole, in the same state. *)
Theorem generate_batch_app first second k s :
  generate_batch w cfg (first ++ second) k s =
  match generate_batch w cfg first k s with
  | (Ok rs1, s1) =>
      match generate_batch w cfg second k s1 with
      | (Ok rs2, s2) => (Ok (rs1 ++ rs2)%list, s2)
      | (Raise e, s2) => (Raise e, s2)
      end
  | (Raise e, s1) => (Raise e, s1)
  end.
Proof.
  unfold generate_batch.
  assert (forall results,
    generate_batch_from w cfg results (first ++ second) k s =
    match generate_batch_from w cfg results first k s with
    | (Ok rs1, s1) => generate_batch_from w cfg rs1 second k s1
    | (Raise e, s1) => (Raise e, s1)
    end) as Happ.
  { revert s. induction first as [|p rest IH]; intros s results; [done|].
    rewrite <- app_comm_cons, !generate_batch_from_cons.
    destruct (generate w cfg (with_kwargs p k) s) as [[r|e] s1]; [|done].
    apply IH. }
  rewrite Happ.
  destruct (generate_batch_from w cfg [] first k s) as [[rs1|e] s1]; [|done].
  apply generate_batch_from_acc.
Qed.

(** X15. A batch fetches the weights once if it starts unloaded with at
    least one prompt, whether it then returns or raises, and never if it
    starts loaded or has no prompt: the model is shared by all items. *)
Theorem generate_batch_loads_once prompts k s :
  let t' := trace (snd (generate_batch w cfg prompts k s)) in
  (Loaded s -> count_events is_load t' = count_events is_load (trace s)) /\
  (prompts = [] -> count_events is_load t' = count_events is_load (trace s)) /\
  (Unloaded s -> prompts <> [] ->
   count_events is_load t' = S (count_events is_load (trace s))).
Proof.
  unfold generate_batch. split; [apply generate_batch_from_loaded|].
  split; [by intros ->|].
  intros Hs Hne. destruct prompts as [|p rest]; [done|].
  rewrite generate_batch_from_cons.
  pose proof (generate_load_count_unloaded (with_kwargs p k) s Hs) as Hc.
  destruct (generate w cfg (with_kwargs p k) s) as [[r|e] s1] eqn:Hg;
    simpl in *; [|done].
  rewrite generate_batch_from_loaded
    by (eapply clear_between_loaded, generate_ok_loaded, Hg).
  by rewrite clear_between_load_count.
Qed.

End BatchExtras.

(** ** The dispatch layer, further *)

Section DispatchExtras.

Variable w : World.
Variable cfg : Settings.

Lemma advances_longer (t : list event) e t' : t <> (t ++ e :: t')%list.
Proof.
  intros H. apply (f_equal length) in H. rewrite length_app in H.
  simpl in H. lia.
Qed.

Lemma advances_bind {A B} (m : M A) (k : A -> M B) :
  advances m -> (forall a, emits (fun _ => true) (k a)) -> advances (bind m k).
Proof.
  intros Hm Hk s. unfold bind. destruct (Hm s) as (e & t & E).
  destruct (m s) as [[a|x] s1]; simpl in *; [|by exists e, t].
  destruct (Hk a s1) as (t2 & E2 & _).
  exists e, (t ++ t2)%list. by rewrite E2, E, <- app_assoc.
Qed.

Lemma advances_call {A} ev (oracle : list event -> A + exn) :
  advances (call ev oracle).
Proof.
  intros s. exists ev, []. unfold call, bind, emit, get_trace. simpl.
  by destruct (oracle _).
Qed.

Lemma advances_generate a : advances (generate w cfg a).
Proof.
  intros s. destruct (generate_trace w cfg a s) as (t & E & _).
  by exists (EvGenerate a), t.
Qed.

Lemma advances_enhance_prompt p st : advances (enhance_prompt w cfg p st).
Proof.
  intros s. eexists _, [].
  unfold enhance_prompt, try_except, ollama_client_generate, bind, emit,
    get_trace, ret, raise. simpl.
  by destruct (ollama_generate _ _ _ _).
Qed.

Lemma emits_anything {A} Q (m : M A) : emits Q m -> emits (fun _ => true) m.
Proof. apply emits_weaken. done. Qed.

Lemma past_lookup_advances (m : M (list content)) s :
  advances m -> past_lookup s (m s).
Proof.
  intros Hm. right. destruct (Hm s) as (e & t & ->).
  intros H. symmetry in H. by apply advances_longer in H.
Qed.

Lemma past_lookup_ill_typed key s :
  past_lookup s (Raise (IllTyped key), s).
Proof. by left. Qed.

Lemma bind_ret {A B} (a : A) (k : A -> M B) : bind (ret a) k = k a.
Proof. reflexivity. Qed.

Lemma bind_raise {A B} e (k : A -> M B) : bind (raise e) k = raise e.
Proof. reflexivity. Qed.

Lemma subscript_some (arguments : gmap string value) key v :
  arguments !! key = Some v -> subscript arguments key = ret v.
Proof. intros H. unfold subscript. by rewrite H. Qed.

Lemma as_opt_str_some key x : as_opt_str key (Some (VStr x)) = ret (Some x).
Proof. reflexivity. Qed.

(** Runs the handler through its lookups and casts, one case per JSON
    type of each argument. *)
Ltac resolve_arguments :=
  repeat first
    [ rewrite bind_ret
    | rewrite bind_raise
    | rewrite as_opt_str_some
    | match goal with
      | H : ?m !! ?k = Some _ |- context [subscript ?m ?k] =>
          rewrite (subscript_some m k _ H)
      | |- context [as_str _ ?v] => destruct v; simpl as_str
      | |- context [as_int _ ?v] => destruct v; simpl as_int
      | |- context [as_bool _ ?v] => destruct v; simpl as_bool
      | |- context [as_opt_str _ ?v] => destruct v as [[]|]; simpl as_opt_str
      end ].

(** X16. The [required] lists of the tool schemas are all the handler
    needs: when every required argument of a registered tool is present,
    the call does not end in a [KeyError] for a missing argument before
    anything has been done. *)
Theorem required_keys_suffice name arguments s t :
  find_tool name = Some t ->
  (forall key, key ∈ required t -> is_Some (arguments !! key)) ->
  past_lookup s (handle_call_tool w cfg name arguments s).
Proof.
  unfold find_tool, handle_call_tool, create_complete_post,
    analyze_performance, get. simpl List.find.
  repeat case_name name; intros Ht Hreq; simplify_eq/=.
  all: repeat match goal with
         | Hall : forall key, _ -> is_Some (?m !! key)
           |- context [subscript ?m ?k] =>
             lazymatch goal with
             | H : m !! k = Some _ |- _ => fail
             | _ => let v := fresh "v" in let Hv := fresh "Hv" in
                    destruct (Hall k ltac:(in_list)) as [v Hv]
             end
         end.
  all: resolve_arguments.
  all: try apply past_lookup_ill_typed.
  all: try (left; intros k; discriminate).
  all: apply past_lookup_advances.
  all: repeat first
         [ apply advances_generate
         | apply advances_enhance_prompt
         | apply advances_call
         | apply advances_bind; [|intros ?] ].
  all: repeat first
         [ apply emits_ret
         | apply image_content_emits
         | apply emits_call; reflexivity
         | apply emits_bind; [|intros ?] ].
Qed.

Lemma emits_subscript Q (arguments : gmap string value) key :
  emits Q (subscript arguments key).
Proof. unfold subscript. destruct (arguments !! key); frame. Qed.

Lemma emits_as_str Q key v : emits Q (as_str key v).
Proof. destruct v; frame. Qed.

Lemma emits_as_int Q key v : emits Q (as_int key v).
Proof. destruct v; frame. Qed.

Lemma emits_as_bool Q key v : emits Q (as_bool key v).
Proof. destruct v; frame. Qed.

Lemma emits_as_opt_str Q key v : emits Q (as_opt_str key v).
Proof. destruct v as [[]|]; simpl; frame. Qed.

(** X17. Only [generate_image] and [create_social_post] reach the model.
    Every other call, whatever its name and arguments, neither probes,
    loads, runs, saves nor empties the cache, and leaves [self.pipeline]
    as it was. *)
Theorem other_tools_leave_model_alone name arguments :
  image_tool name = false ->
  emits (fun e => negb (touches_model e))
    (handle_call_tool w cfg name arguments) /\
  keeps_pipeline (handle_call_tool w cfg name arguments).
Proof.
  unfold image_tool, handle_call_tool, analyze_performance.
  repeat case_name name; try discriminate; intros _.
  all: split.
  all: repeat first
         [ apply emits_subscript | apply emits_as_str | apply emits_as_int
         | apply emits_as_bool | apply emits_as_opt_str
         | apply emits_ret | apply emits_raise
         | apply emits_call; reflexivity
         | (eapply emits_weaken; [|apply enhance_prompt_emits]); by intros []
         | apply emits_bind; [|intros ?]
         | apply subscript_keeps | apply as_str_keeps | apply as_int_keeps
         | apply as_bool_keeps | apply as_opt_str_keeps
         | apply keeps_pipeline_ret | apply keeps_pipeline_raise
         | apply keeps_pipeline_call | apply enhance_prompt_keeps
         | apply keeps_pipeline_bind; [|intros ?] ].
Qed.

Lemma generate_emits a : emits generate_events (generate w cfg a).
Proof.
  intros s. rewrite generate_unfold.
  destruct (before_try_trace w cfg a s) as (t1 & E1 & F1).
  assert (forallb generate_events (EvGenerate a :: t1) = true) as F1'.
  { simpl. apply forallb_forall. intros e He.
    eapply forallb_forall in F1; [|done]. by destruct e. }
  destruct (before_try w cfg a s) as [[[[p [width height]] start]|e] s1];
    simpl in E1; [|by exists (EvGenerate a :: t1)].
  assert (emits generate_events
            (try_except (run_and_save w cfg a p width height start)
               on_failure)) as Ht.
  { apply emits_try; [|intros; by apply on_failure_emits_any].
    eapply emits_weaken; [|apply run_and_save_emits]. by intros []. }
  destruct (Ht s1) as (t2 & E2 & F2).
  exists ((EvGenerate a :: t1) ++ t2)%list.
  rewrite E2, E1, <- app_assoc. split; [done|].
  by rewrite forallb_app, F1', F2.
Qed.

Lemma generate_ok_save a s r s' :
  generate w cfg a s = (Ok r, s') ->
  (exists t, trace s' = (t ++ [EvSave (image_path r)])%list) /\
  count_events is_save (trace s') = S (count_events is_save (trace s)) /\
  (exists img, image_data r = encode_png img).
Proof.
  intros (p & width & height & start & s1 & Hb & Hr)%generate_ok.
  destruct (before_try_trace w cfg a s) as (t & Et & Ft).
  rewrite Hb in Et. simpl in Et.
  pose proof (run_and_save_ok_trace _ _ _ _ _ _ _ _ _ _ Hr) as Htr.
  apply run_and_save_ok in Hr as (_ & _ & _ & _ & _ & _ & _ & Himg).
  split; [|split; [|done]].
  - exists (trace s1 ++ [EvPipeline (args_of a p width height); EvTime; EvTime])%list.
    rewrite Htr, <- app_assoc. done.
  - rewrite Htr, Et. count.
    rewrite (count_none is_save before_try_events t Ft); [lia|by intros []].
Qed.

Lemma generate_ok_invalid_data a s r s' mimeType st :
  generate w cfg a s = (Ok r, s') ->
  image_content (image_data r) mimeType st = (Raise invalid_image_data, st).
Proof.
  intros (_ & _ & img & ->)%generate_ok_save. apply image_content_png.
Qed.

(** X18. [create_social_post] asks for the caption only after the image
    has been generated and saved: the caption service is contacted at
    most once, and whenever it is, exactly one file has been saved
    before. The call never returns a response: once the image and the
    caption are there, the image part of the response is refused, its
    PNG bytes not being a [str], and the call raises the validation
    error, the caption service having been contacted exactly once. *)
Theorem create_social_post_order arguments s :
  let out := handle_call_tool w cfg "create_social_post" arguments s in
  let captions t := count_events is_caption t in
  let saves t := count_events is_save t in
  (captions (trace (snd out)) = captions (trace s) \/
   captions (trace (snd out)) = S (captions (trace s)) /\
   saves (trace (snd out)) = S (saves (trace s))) /\
  (forall resp, fst out <> Ok resp) /\
  (forall theme platform tone hashtags r s1 caption,
     arguments !! "theme" = Some (VStr theme) ->
     arguments !! "platform" = Some (VStr platform) ->
     get arguments "tone" (VStr "professional") = VStr tone ->
     get arguments "include_hashtags" (VBool true) = VBool hashtags ->
     generate w cfg
       (generate_defaults (theme ++ " content for " ++ platform)
          (Some (if String.eqb tone "professional"
                 then "professional" else "creative"))) s
     = (Ok r, s1) ->
     caption_generate w
       (trace s1 ++ [EvCaption theme platform tone hashtags])%list
       theme platform tone hashtags = inl caption ->
     out = (Raise invalid_image_data,
            {| pipeline := pipeline s1;
               trace := trace s1
                        ++ [EvCaption theme platform tone hashtags] |}) /\
     captions (trace (snd out)) = S (captions (trace s))).
Proof.
  intros out captions saves. subst captions saves.
  assert (out = handle_call_tool w cfg "create_social_post" arguments s)
    as Hout by reflexivity.
  clearbody out.
  change (handle_call_tool w cfg "create_social_post" arguments s)
    with ((theme <- subscript arguments "theme" ;;
           platform <- subscript arguments "platform" ;;
           theme <- as_str "theme" theme ;;
           platform <- as_str "platform" platform ;;
           tone <- as_str "tone" (get arguments "tone" (VStr "professional")) ;;
           include_hashtags <-
             as_bool "include_hashtags"
               (get arguments "include_hashtags" (VBool true)) ;;
           post <- create_complete_post w cfg theme platform tone
                     include_hashtags ;;
           image <- image_content (image_data (fst post)) "image/png" ;;
           ret [TextContent ("Created post: " ++ snd post); image]) s)
    in Hout.
  unfold subscript in Hout.
  destruct (arguments !! "theme") as [vt|];
    [|subst out; split; [by left|done]].
  rewrite bind_ret in Hout.
  destruct (arguments !! "platform") as [vp|];
    [|subst out; split; [by left|done]].
  rewrite bind_ret in Hout.
  destruct vt; simpl as_str in Hout; rewrite ?bind_raise in Hout;
    try (subst out; split; [by left|done]).
  rewrite bind_ret in Hout.
  destruct vp; simpl as_str in Hout; rewrite ?bind_raise in Hout;
    try (subst out; split; [by left|done]).
  rewrite bind_ret in Hout.
  destruct (get arguments "tone" (VStr "professional"));
    simpl as_str in Hout; rewrite ?bind_raise in Hout;
    try (subst out; split; [by left|done]).
  rewrite bind_ret in Hout.
  destruct (get arguments "include_hashtags" (VBool true));
    simpl as_bool in Hout; rewrite ?bind_raise in Hout;
    try (subst out; split; [by left|done]).
  rewrite bind_ret in Hout.
  unfold create_complete_post in Hout. unfold bind at 1 2 in Hout.
  match type of Hout with
  | context [generate w cfg ?a s] =>
      pose proof (emits_count generate_events is_caption _ s
                    (generate_emits a)) as Hcap;
      pose proof (generate_ok_save a s) as Hsave;
      destruct (generate w cfg a s) as [[gr|ge] gs] eqn:Hg
  end; simpl in Hcap.
  - destruct (Hsave gr gs eq_refl) as (_ & Hs & _).
    unfold call, bind, emit, get_trace, ret, raise in Hout. simpl in Hout.
    destruct (caption_generate w _ _ _ _ _) as [c|ce] eqn:Hc; simpl in Hout.
    + rewrite (generate_ok_invalid_data _ _ _ _ _ _ Hg) in Hout.
      subst out. simpl. split; [|split].
      * right. split; count; rewrite ?Hcap by (by intros []); lia.
      * done.
      * intros theme platform tone hashtags r' s1' caption'
          [= <-] [= <-] [= <-] [= <-] Hg' _.
        pose proof (eq_trans (eq_sym Hg) Hg') as [= <- <-].
        split; [done|]. count. rewrite ?Hcap by (by intros []). lia.
    + subst out. simpl. split; [|split].
      * right. split; count; rewrite ?Hcap by (by intros []); lia.
      * done.
      * intros theme platform tone hashtags r' s1' caption'
          [= <-] [= <-] [= <-] [= <-] Hg' Hc'.
        pose proof (eq_trans (eq_sym Hg) Hg') as [= <- <-].
        simpl in Hc'. rewrite Hc in Hc'. discriminate Hc'.
  - subst out. simpl. split; [left; apply Hcap; by intros []|].
    split; [done|].
    intros theme platform tone hashtags r' s1' caption'
      [= <-] [= <-] [= <-] [= <-] Hg'.
    pose proof (eq_trans (eq_sym Hg) Hg') as Hno. discriminate Hno.
Qed.

(** X19. A [generate_image] call never returns a response. When
    [generate] returns, the handler goes on to build the response and the
    image part is refused: the PNG bytes of the result are not a [str].
    The call then raises the validation error in the state [generate]
    left, the file of the result being the last thing saved and the
    generator being loaded. When [generate] raises, the call raises the
    same exception. *)
Theorem generate_image_never_answers arguments s :
  (forall resp,
     fst (handle_call_tool w cfg "generate_image" arguments s) <> Ok resp) /\
  (forall p st sz n r s1,
     arguments !! "prompt" = Some (VStr p) ->
     arguments !! "style" = VStr <$> st ->
     get arguments "size" (VStr "1024x1024") = VStr sz ->
     get arguments "steps" (VInt 30) = VInt n ->
     generate w cfg
       {| arg_prompt := p; arg_style := st; arg_size := sz;
          arg_steps := n; arg_guidance_scale := 7 # 1;
          arg_enhance_prompt := true |} s = (Ok r, s1) ->
     handle_call_tool w cfg "generate_image" arguments s
     = (Raise invalid_image_data, s1) /\
     (exists t, trace s1 = (t ++ [EvSave (image_path r)])%list) /\
     (exists body, image_data r = (png_signature ++ body)%list) /\
     Loaded s1) /\
  (forall p st sz n e s1,
     arguments !! "prompt" = Some (VStr p) ->
     arguments !! "style" = VStr <$> st ->
     get arguments "size" (VStr "1024x1024") = VStr sz ->
     get arguments "steps" (VInt 30) = VInt n ->
     generate w cfg
       {| arg_prompt := p; arg_style := st; arg_size := sz;
          arg_steps := n; arg_guidance_scale := 7 # 1;
          arg_enhance_prompt := true |} s = (Raise e, s1) ->
     handle_call_tool w cfg "generate_image" arguments s = (Raise e, s1)).
Proof.
  change (handle_call_tool w cfg "generate_image" arguments s)
    with ((prompt <- subscript arguments "prompt" ;;
           prompt <- as_str "prompt" prompt ;;
           style <- as_opt_str "style" (arguments !! "style") ;;
           size <- as_str "size" (get arguments "size" (VStr "1024x1024")) ;;
           steps <- as_int "steps" (get arguments "steps" (VInt 30)) ;;
           result <- generate w cfg
                       {| arg_prompt := prompt; arg_style := style;
                          arg_size := size; arg_steps := steps;
                          arg_guidance_scale := 7 # 1;
                          arg_enhance_prompt := true |} ;;
           image_response result) s).
  split; [|split].
  - unfold subscript.
    destruct (arguments !! "prompt") as [vp|]; [|done]. rewrite bind_ret.
    destruct vp; simpl as_str; rewrite ?bind_raise; try done.
    rewrite bind_ret.
    destruct (arguments !! "style") as [[]|]; simpl as_opt_str;
      rewrite ?bind_ret, ?bind_raise; try done.
    all: destruct (get arguments "size" (VStr "1024x1024")); simpl as_str;
      rewrite ?bind_raise; try done; rewrite bind_ret.
    all: destruct (get arguments "steps" (VInt 30)); simpl as_int;
      rewrite ?bind_raise; try done; rewrite bind_ret.
    all: unfold bind at 1.
    all: match goal with
         | |- context [generate w cfg ?a ?st] =>
             destruct (generate w cfg a st) as [[gr|ge] gs] eqn:Hg; [|done]
         end.
    all: unfold image_response, bind.
    all: by rewrite (generate_ok_invalid_data _ _ _ _ _ _ Hg).
  - intros p st sz n r s1 Hp Hst Hsz Hn Hg.
    unfold subscript. rewrite Hp, Hst, Hsz, Hn, bind_ret. simpl as_str.
    rewrite bind_ret.
    assert (as_opt_str "style" (VStr <$> st) = ret st) as ->
      by (by destruct st).
    rewrite !bind_ret. simpl as_int. rewrite bind_ret.
    unfold bind at 1. rewrite Hg. unfold image_response, bind.
    rewrite (generate_ok_invalid_data _ _ _ _ _ _ Hg).
    split; [done|].
    pose proof (generate_ok_loaded w cfg _ _ _ _ Hg) as Hload.
    apply generate_ok_save in Hg as (Ht & _ & img & Himg).
    split; [done|]. split; [by exists (png_body img)|done].
  - intros p st sz n e s1 Hp Hst Hsz Hn Hg.
    unfold subscript. rewrite Hp, Hst, Hsz, Hn, bind_ret. simpl as_str.
    rewrite bind_ret.
    assert (as_opt_str "style" (VStr <$> st) = ret st) as ->
      by (by destruct st).
    rewrite !bind_ret. simpl as_int. rewrite bind_ret.
    unfold bind at 1. by rewrite Hg.
Qed.

(** X20. The [enhance_prompt] tool does not fail on arguments of the
    declared types: it returns one text part, after exactly one request to
    the text service, whether or not that request succeeded, and without
    touching the pipeline. *)
Theorem enhance_prompt_tool_returns arguments s p st :
  arguments !! "basic_prompt" = Some (VStr p) ->
  arguments !! "style_preference" = VStr <$> st ->
  exists text,
    handle_call_tool w cfg "enhance_prompt" arguments s
    = (Ok [TextContent ("Enhanced prompt: " ++ text)],
       {| pipeline := pipeline s;
          trace := trace s ++ [EvOllamaGenerate (prompt_enhancer_model cfg)
                                 (enhancement_request p st)] |}).
Proof.
  intros Hp Hst.
  change (handle_call_tool w cfg "enhance_prompt" arguments s)
    with ((basic_prompt <- subscript arguments "basic_prompt" ;;
           basic_prompt <- as_str "basic_prompt" basic_prompt ;;
           style_preference <-
             as_opt_str "style_preference" (arguments !! "style_preference") ;;
           enhanced <- enhance_prompt w cfg basic_prompt style_preference ;;
           ret [TextContent ("Enhanced prompt: " ++ enhanced)]) s).
  rewrite (subscript_some _ _ _ Hp), bind_ret, Hst. simpl as_str.
  rewrite bind_ret.
  assert (as_opt_str "style_preference" (VStr <$> st) = ret st) as ->
    by (by destruct st).
  rewrite bind_ret.
  unfold enhance_prompt, try_except, ollama_client_generate, bind, emit,
    get_trace, ret, raise. simpl.
  destruct (ollama_generate _ _ _ _); eauto.
Qed.

End DispatchExtras.

(** ** The test script *)

Section TestExtras.

Variable w : World.
Variable cfg : Settings.

(** X21. [test_prompt_enhancement] never raises, and it reports success
    whenever the text service fails: the fallback prompt is longer than
    the test's prompt. It reports failure only when the service answers
    with a text that, stripped, is no longer than ["a coffee shop"]. *)
Theorem test_prompt_enhancement_outcome s :
  let request := enhancement_request "a coffee shop" (Some "cozy and warm") in
  let s' := {| pipeline := None;
               trace := trace s ++ [EvOllamaGenerate
                                      (prompt_enhancer_model cfg) request] |} in
  let answer :=
    ollama_generate w (trace s') (prompt_enhancer_model cfg) request in
  (exists b, test_prompt_enhancement w cfg s = (Ok b, s')) /\
  (forall e, answer = OllamaRaises e \/ answer = OllamaMalformed e ->
     test_prompt_enhancement w cfg s = (Ok true, s')) /\
  (forall text, answer = OllamaResponse text ->
     test_prompt_enhancement w cfg s
     = (Ok (13 <? String.length (Py.strip text))%nat, s')).
Proof.
  intros request s' answer.
  assert (test_prompt_enhancement w cfg s =
          match answer with
          | OllamaResponse text =>
              (Ok (13 <? String.length (Py.strip text))%nat, s')
          | _ => (Ok true, s')
          end) as Heq.
  { unfold test_prompt_enhancement, new_generator, enhance_prompt,
      try_except, ollama_client_generate, bind, set_pipeline, emit,
      get_trace, ret, raise.
    subst answer s' request. simpl.
    destruct (ollama_generate _ _ _ _); simpl; try done.
    by destruct (13 <? _)%nat. }
  rewrite Heq. split; [|split].
  - destruct answer; eauto.
  - by intros e [->| ->].
  - by intros text ->.
Qed.

(** X22. [test_image_generation] and [run_full_test] never raise and
    report success exactly when their [generate] call returned. Each works
    on a generator of its own, so each fetches the weights once, also
    when the model had been loaded before. *)
Theorem generation_tests_outcome s :
  let fresh := {| pipeline := None; trace := trace s |} in
  (exists b s',
     test_image_generation w cfg s = (Ok b, s') /\
     (b = true <->
      exists r, generate w cfg test_image_args fresh = (Ok r, s')) /\
     count_events is_load (trace s') = S (count_events is_load (trace s))) /\
  (exists b s',
     run_full_test w cfg s = (Ok b, s') /\
     (b = true <->
      exists r, generate w cfg full_test_args fresh = (Ok r, s')) /\
     count_events is_load (trace s') = S (count_events is_load (trace s))).
Proof.
  intros fresh.
  assert (forall a,
    exists b s',
      try_except (new_generator ;;; result <- generate w cfg a ;; ret true)
        (fun _ => ret false) s = (Ok b, s') /\
      (b = true <-> exists r, generate w cfg a fresh = (Ok r, s')) /\
      count_events is_load (trace s') = S (count_events is_load (trace s)))
    as Hboth.
  { intros a.
    pose proof (generate_load_count_unloaded w cfg a fresh eq_refl) as Hc.
    unfold try_except, new_generator, set_pipeline. unfold bind at 1. simpl.
    fold fresh. unfold bind, ret.
    destruct (generate w cfg a fresh) as [[r|e] s1]; simpl in Hc.
    - exists true, s1. split; [done|]. split; [|done]. split; eauto.
    - exists false, s1. split; [done|]. split; [|done].
      split; [done|]. by intros [r Hr]. }
  split; apply Hboth.
Qed.

End TestExtras.

(** ** The further properties at work on test doubles *)

Module MoreRuns.
Import Doubles MoreDoubles.

Lemma size_round_trip_witness :
  get_image_size_tuple default_settings (Some "-3x0") = Ok (-3, 0).
Proof.
  apply (size_round_trip default_settings (-3) 0);
    unfold Py.fits, Py.max_str_digits; simpl; lia.
Defined.

Lemma size_accepted_iff_witness :
  get_image_size_tuple default_settings (Some " 640 x+480") = Ok (640, 480) /\
  Py.int (String (ascii_of_nat 28) "7") = None.
Proof.
  split; [|reflexivity].
  apply (proj2 (size_accepted_iff default_settings (Some " 640 x+480")
                  640 480)).
  exists " 640 ", "+480". repeat split; reflexivity.
Defined.

Lemma size_needs_one_separator_witness :
  exists ve,
    get_image_size_tuple default_settings (Some "1x2x3")
    = Raise (ValueError ve).
Proof.
  apply (size_needs_one_separator default_settings (Some "1x2x3")).
  simpl. lia.
Defined.

Lemma load_model_configures_witness :
  load_model happy default_settings init
  = (Ok tt,
     {| pipeline := Some (configured_pipeline happy default_settings);
        trace := [EvFromPretrained (sd3_model_path default_settings);
                  EvTo Cuda] |}).
Proof.
  apply (proj1 (load_model_configures happy default_settings init
                  eq_refl eq_refl eq_refl)).
Defined.

Lemma load_model_failures_witness :
  fst (load_model (loader (Some no_weights) None) default_settings init)
  = Raise no_weights /\
  exists p s1,
    load_model (loader None (Some no_device)) default_settings init
    = (Raise no_device, s1) /\
    pipeline s1 = Some p /\ placed_on p = None /\
    load_model (loader None (Some no_device)) default_settings s1
    = (Ok tt, s1).
Proof.
  split.
  - rewrite (proj1 (load_model_failures (loader (Some no_weights) None)
                      default_settings init eq_refl) no_weights eq_refl).
    reflexivity.
  - apply (proj2 (load_model_failures (loader None (Some no_device))
                    default_settings init eq_refl) no_device);
      reflexivity.
Defined.

Lemma unload_model_effect_witness :
  unload_model happy loaded
  = (Ok tt, {| pipeline := None; trace := trace loaded ++ [EvEmptyCache] |})
  /\ unload_model happy init = (Ok tt, init).
Proof.
  split.
  - apply (proj1 (proj2 (unload_model_effect happy loaded))).
    unfold Loaded. discriminate.
  - apply (proj1 (unload_model_effect happy init)). reflexivity.
Defined.

Lemma reload_after_unload_witness :
  count_events is_load
    (trace (snd ((unload_model happy ;;; load_model happy default_settings)
                   loaded)))
  = 2%nat.
Proof.
  apply (reload_after_unload happy default_settings loaded).
  unfold Loaded. discriminate.
Defined.

Lemma generate_without_enhancement_witness :
  count_events is_ollama
    (trace (snd (generate (world true ollama_down run_ok) default_settings
                   robot init)))
  = 0%nat.
Proof.
  apply (proj1 (generate_without_enhancement
                  (world true ollama_down run_ok) default_settings robot init
                  eq_refl)).
Defined.

Lemma generate_with_service_down_witness :
  exists r s',
    generate (world true ollama_down run_ok) default_settings noir init
    = (Ok r, s') /\
    prompt r
    = "a harbour at night, high quality, detailed, professional photography".
Proof.
  destruct (generate (world true ollama_down run_ok) default_settings noir init)
    as [[r|e] s'] eqn:Hg; [|vm_compute in Hg; discriminate Hg].
  exists r, s'. split; [reflexivity|].
  apply (generate_with_service_down (world true ollama_down run_ok)
           default_settings noir init r s' eq_refl); [|exact Hg].
  intros t model request text. discriminate.
Defined.

Lemma generate_success_effects_witness :
  exists r s',
    generate happy default_settings robot init = (Ok r, s') /\
    (exists s1 width height,
       trace s' = (trace s1 ++ [EvPipeline (args_of robot (prompt r)
                                              width height);
                                EvTime; EvTime; EvSave (image_path r)])%list /\
       get_image_size_tuple default_settings (Some (arg_size robot))
       = Ok (width, height) /\
       count_events is_run (trace s1) = count_events is_run (trace init) /\
       count_events is_save (trace s1) = count_events is_save (trace init) /\
       Loaded s').
Proof.
  destruct (generate happy default_settings robot init)
    as [[r|e] s'] eqn:Hg; [|vm_compute in Hg; discriminate Hg].
  exists r, s'. split; [reflexivity|].
  exact (generate_success_effects happy default_settings robot init r s' Hg).
Defined.

Lemma generate_load_failure_witness :
  generate (loader (Some no_weights) None) default_settings robot init
  = (Raise no_weights,
     {| pipeline := None;
        trace := [EvGenerate robot;
                  EvFromPretrained (sd3_model_path default_settings)] |}).
Proof.
  apply (generate_load_failure (loader (Some no_weights) None)
           default_settings robot init no_weights); reflexivity.
Defined.

Lemma generate_batch_results_in_order_witness :
  exists rs s',
    generate_batch happy default_settings three plain init = (Ok rs, s') /\
    prompt <$> rs = three.
Proof.
  destruct (generate_batch happy default_settings three plain init)
    as [[rs|e] s'] eqn:Hg; [|vm_compute in Hg; discriminate Hg].
  exists rs, s'. split; [reflexivity|].
  apply (generate_batch_results_in_order happy default_settings three plain
           init rs s' eq_refl Hg).
Defined.

Lemma generate_batch_loads_once_witness :
  count_events is_load
    (trace (snd (generate_batch happy default_settings three plain init)))
  = 1%nat /\
  count_events is_load
    (trace (snd (generate_batch happy default_settings three plain loaded)))
  = 1%nat.
Proof.
  split.
  - apply (proj2 (proj2 (generate_batch_loads_once happy default_settings
                           three plain init))); [reflexivity|discriminate].
  - apply (proj1 (generate_batch_loads_once happy default_settings
                    three plain loaded)).
    unfold Loaded. discriminate.
Defined.

Lemma required_keys_suffice_witness :
  past_lookup init
    (handle_call_tool happy default_settings "generate_image"
       {[ "prompt" := VStr "a lighthouse" ]} init).
Proof.
  destruct (find_tool "generate_image") as [t|] eqn:Ht; [|discriminate Ht].
  apply (required_keys_suffice happy default_settings "generate_image"
           {[ "prompt" := VStr "a lighthouse" ]} init t Ht).
  injection Ht as <-. simpl.
  intros key [->|Hk]%elem_of_cons; [by eexists|by apply elem_of_nil in Hk].
Defined.

Lemma other_tools_leave_model_alone_witness :
  keeps_pipeline
    (handle_call_tool happy default_settings "schedule_content" ∅).
Proof.
  apply (other_tools_leave_model_alone happy default_settings
           "schedule_content" ∅). reflexivity.
Defined.

Lemma create_social_post_order_witness :
  exists s',
    handle_call_tool happy default_settings "create_social_post"
      post_arguments init = (Raise invalid_image_data, s') /\
    count_events is_caption (trace s') = 1%nat.
Proof.
  destruct (generate happy default_settings
              (generate_defaults "autumn sale content for instagram"
                 (Some "professional")) init) as [[r|e] s1] eqn:Hg;
    [|vm_compute in Hg; discriminate Hg].
  pose proof (proj2 (proj2 (create_social_post_order happy default_settings
                              post_arguments init))
                "autumn sale" "instagram" "professional" true r s1 "caption")
    as H.
  simpl in H.
  specialize (H ltac:(reflexivity) ltac:(reflexivity) ltac:(reflexivity)
                ltac:(reflexivity) Hg ltac:(reflexivity)).
  destruct H as [H Hc]. eexists. split; [exact H|].
  rewrite H in Hc. exact Hc.
Defined.

Lemma generate_image_never_answers_witness :
  exists s',
    handle_call_tool happy default_settings "generate_image"
      {[ "prompt" := VStr "a lighthouse" ]} init
    = (Raise invalid_image_data, s') /\
    Loaded s' /\
    count_events is_save (trace s') = 1%nat.
Proof.
  destruct (generate happy default_settings
              {| arg_prompt := "a lighthouse"; arg_style := None;
                 arg_size := "1024x1024"; arg_steps := 30;
                 arg_guidance_scale := 7 # 1;
                 arg_enhance_prompt := true |} init)
    as [[r|e] s1] eqn:Hg; [|vm_compute in Hg; discriminate Hg].
  pose proof (proj1 (proj2 (generate_image_never_answers happy
                              default_settings
                              {[ "prompt" := VStr "a lighthouse" ]} init))
                "a lighthouse" None "1024x1024" 30 r s1) as H.
  specialize (H ltac:(reflexivity) ltac:(reflexivity) ltac:(reflexivity)
                ltac:(reflexivity) Hg).
  destruct H as (H & _ & _ & Hl).
  exists s1. split; [exact H|]. split; [exact Hl|].
  vm_compute in Hg. injection Hg as _ <-. reflexivity.
Defined.

Lemma enhance_prompt_tool_returns_witness :
  exists text,
    fst (handle_call_tool (world true ollama_down run_ok) default_settings
           "enhance_prompt" {[ "basic_prompt" := VStr "a coffee shop" ]} init)
    = Ok [TextContent ("Enhanced prompt: " ++ text)].
Proof.
  destruct (enhance_prompt_tool_returns (world true ollama_down run_ok)
              default_settings {[ "basic_prompt" := VStr "a coffee shop" ]}
              init "a coffee shop" None) as [text H];
    [reflexivity|reflexivity|].
  exists text. by rewrite H.
Defined.

Lemma test_prompt_enhancement_outcome_witness :
  fst (test_prompt_enhancement (world true ollama_down run_ok)
         default_settings init) = Ok true.
Proof.
  rewrite (proj1 (proj2 (test_prompt_enhancement_outcome
                           (world true ollama_down run_ok) default_settings
                           init))
             (ExternalError "connection refused")); [reflexivity|].
  left. reflexivity.
Defined.

Lemma generation_tests_outcome_witness :
  exists s',
    test_image_generation happy default_settings loaded = (Ok true, s') /\
    count_events is_load (trace s') = 2%nat.
Proof.
  destruct (proj1 (generation_tests_outcome happy default_settings loaded))
    as (b & s' & Ht & Hb & Hc).
  exists s'. split; [|exact Hc].
  rewrite Ht. f_equal. f_equal. apply Hb.
  vm_compute in Ht. injection Ht as _ <-.
  eexists. vm_compute. reflexivity.
Defined.

End MoreRuns.
